(** * Verification of instagram_date_fixer.py

    Shallow embedding of [instagram_date_fixer.py]:
    - [parse_instagram_date] together with the two [datetime.strptime]
      formats it tries (CPython's [_strptime] turns a format into a regular
      expression, takes the first match in backtracking order and requires
      it to cover the whole string; every rejection is a [ValueError],
      which is the [None] of the model);
    - [find_date_in_html] and [find_images_in_html] over a parsed markup
      tree (the HTML parser itself is an external collaborator: the model
      starts from the tree BeautifulSoup builds);
    - [update_image_metadata] as a state-and-exception computation over a
      file system, the effects of Pillow, piexif, shutil and os being
      given by an environment that decides where an exception is raised.

    Characters are ASCII; Python's [\d], [\s] and [str.strip] are modelled
    on the ASCII digits and the ASCII whitespace characters. *)

From Stdlib Require Import Ascii String List Bool Arith Lia.
From stdpp Require Import base gmap strings list.
Import ListNotations.

Open Scope nat_scope.

(* ------------------------------------------------------------------ *)
(** ** Characters *)

Definition code (c : ascii) : nat := nat_of_ascii c.

Definition in_range (lo hi : ascii) (c : ascii) : bool :=
  (code lo <=? code c) && (code c <=? code hi).

Definition is_digit (c : ascii) : bool := in_range "0" "9" c.

(** Python's [str.isspace] / regex [\s] on ASCII: 9..13, 28..31, 32. *)
Definition is_space (c : ascii) : bool :=
  let n := code c in
  ((9 <=? n) && (n <=? 13)) || ((28 <=? n) && (n <=? 31)) || (n =? 32).

Definition lower (c : ascii) : ascii :=
  if in_range "A" "Z" c then ascii_of_nat (code c + 32) else c.

Definition lit (c : ascii) : ascii -> bool := fun x => Ascii.eqb x c.

(** A character of a pattern compiled with [re.IGNORECASE]. *)
Definition ci (c : ascii) : ascii -> bool := fun x => Ascii.eqb (lower x) c.

Definition lower_str (s : list ascii) : list ascii := map lower s.

(* ------------------------------------------------------------------ *)
(** ** The regular expressions built by [_strptime]

    A compiled format is a sequence of items: a literal character, a
    [\s+] (every run of whitespace in the format becomes [\s+]) or a
    named group [(?P<x>alt1|alt2|...)] whose alternatives are fixed-length
    sequences of character classes. *)

Inductive item :=
| ILit (p : ascii -> bool)
| IWs
| IGroup (alts : list (list (ascii -> bool))).

Fixpoint take_alt (alt : list (ascii -> bool)) (s : list ascii)
  : option (list ascii * list ascii) :=
  match alt with
  | [] => Some ([], s)
  | p :: alt' =>
      match s with
      | c :: s' =>
          if p c then
            match take_alt alt' s' with
            | Some (cap, r) => Some (c :: cap, r)
            | None => None
            end
          else None
      | [] => None
      end
  end.

Fixpoint ws_run (s : list ascii) : nat :=
  match s with
  | c :: s' => if is_space c then S (ws_run s') else 0
  | [] => 0
  end.

(** [re.match]: the first match in backtracking order (alternatives left
    to right, [\s+] greedy), returning the groups and the unmatched
    remainder. *)
Fixpoint re_match (its : list item) (s : list ascii)
  : option (list (list ascii) * list ascii) :=
  match its with
  | [] => Some ([], s)
  | ILit p :: its' =>
      match s with
      | c :: s' => if p c then re_match its' s' else None
      | [] => None
      end
  | IWs :: its' =>
      (fix back (k : nat) :=
         match k with
         | 0 => None
         | S k' =>
             match re_match its' (skipn (S k') s) with
             | Some r => Some r
             | None => back k'
             end
         end) (ws_run s)
  | IGroup alts :: its' =>
      (fix try_alts (l : list (list (ascii -> bool))) :=
         match l with
         | [] => None
         | a :: l' =>
             match take_alt a s with
             | Some (cap, s') =>
                 match re_match its' s' with
                 | Some (caps, r) => Some (cap :: caps, r)
                 | None => try_alts l'
                 end
             | None => try_alts l'
             end
         end) alts
  end.

(** The directive regexes of CPython's [_strptime.TimeRE]. *)
Definition re_Y : item := IGroup [[is_digit; is_digit; is_digit; is_digit]].
Definition re_m : item :=
  IGroup [[lit "1"; in_range "0" "2"]; [lit "0"; in_range "1" "9"]; [in_range "1" "9"]].
Definition re_d : item :=
  IGroup [[lit "3"; in_range "0" "1"]; [in_range "1" "2"; is_digit];
          [lit "0"; in_range "1" "9"]; [in_range "1" "9"]; [lit " "; in_range "1" "9"]].
Definition re_H : item :=
  IGroup [[lit "2"; in_range "0" "3"]; [in_range "0" "1"; is_digit]; [is_digit]].
Definition re_I : item :=
  IGroup [[lit "1"; in_range "0" "2"]; [lit "0"; in_range "1" "9"]; [in_range "1" "9"]].
Definition re_M : item := IGroup [[in_range "0" "5"; is_digit]; [is_digit]].
Definition re_S : item :=
  IGroup [[lit "6"; in_range "0" "1"]; [in_range "0" "5"; is_digit]; [is_digit]].

(** [locale_time.a_month[1:]] in the C locale, lower case. *)
Definition month_abbrs : list (list ascii) :=
  map list_ascii_of_string
    ["jan"; "feb"; "mar"; "apr"; "may"; "jun";
     "jul"; "aug"; "sep"; "oct"; "nov"; "dec"]%string.

Definition re_b : item := IGroup (map (map ci) month_abbrs).
Definition re_p : item := IGroup [[ci "a"; ci "m"]; [ci "p"; ci "m"]].

(** ["%Y:%m:%d %H:%M:%S"] *)
Definition exif_format_re : list item :=
  [re_Y; ILit (lit ":"); re_m; ILit (lit ":"); re_d; IWs;
   re_H; ILit (lit ":"); re_M; ILit (lit ":"); re_S].

(** ["%b %d, %Y %I:%M %p"] *)
Definition display_format_re : list item :=
  [re_b; IWs; re_d; ILit (lit ","); IWs; re_Y; IWs;
   re_I; ILit (lit ":"); re_M; IWs; re_p].

(* ------------------------------------------------------------------ *)
(** ** [datetime] *)

Record datetime := mk_dt {
  dt_year : nat; dt_month : nat; dt_day : nat;
  dt_hour : nat; dt_minute : nat; dt_second : nat }.

Definition is_leap (y : nat) : bool :=
  (Nat.eqb (y mod 4) 0 && negb (Nat.eqb (y mod 100) 0)) || Nat.eqb (y mod 400) 0.

Definition days_in_month (y m : nat) : nat :=
  match m with
  | 2 => if is_leap y then 29 else 28
  | 4 | 6 | 9 | 11 => 30
  | _ => 31
  end.

(** The range checks of the [datetime] constructor (each failure is a
    [ValueError]). *)
Definition datetime_ok (dt : datetime) : bool :=
  (1 <=? dt_year dt) && (dt_year dt <=? 9999) &&
  (1 <=? dt_month dt) && (dt_month dt <=? 12) &&
  (1 <=? dt_day dt) && (dt_day dt <=? days_in_month (dt_year dt) (dt_month dt)) &&
  (dt_hour dt <=? 23) && (dt_minute dt <=? 59) && (dt_second dt <=? 59).

Definition mk_datetime (y mo d h mi s : nat) : option datetime :=
  let dt := mk_dt y mo d h mi s in
  if datetime_ok dt then Some dt else None.

Definition digit_val (c : ascii) : nat := code c - 48.

(** [int(...)] of a captured group: only digits and, for [%d], a leading
    space (which [int] strips). *)
Definition py_int (s : list ascii) : nat :=
  fold_left (fun acc c => if is_digit c then acc * 10 + digit_val c else acc) s 0.

Fixpoint index_of (x : list ascii) (l : list (list ascii)) : nat :=
  match l with
  | [] => 0
  | y :: l' => if decide (x = y) then 0 else S (index_of x l')
  end.

(** [datetime.strptime(date_str, "%Y:%m:%d %H:%M:%S")] *)
Definition strptime_exif (s : string) : option datetime :=
  match re_match exif_format_re (list_ascii_of_string s) with
  | Some ([y; mo; d; h; mi; se], []) =>
      mk_datetime (py_int y) (py_int mo) (py_int d) (py_int h) (py_int mi) (py_int se)
  | _ => None
  end.

(** The [%I] / [%p] combination of [_strptime]. *)
Definition hour_of_12h (hour : nat) (ampm : list ascii) : nat :=
  if decide (ampm = list_ascii_of_string "am") then
    (if Nat.eqb hour 12 then 0 else hour)
  else if Nat.eqb hour 12 then hour else hour + 12.

(** [datetime.strptime(date_str, "%b %d, %Y %I:%M %p")] *)
Definition strptime_display (s : string) : option datetime :=
  match re_match display_format_re (list_ascii_of_string s) with
  | Some ([b; d; y; i; mi; p], []) =>
      mk_datetime (py_int y) (S (index_of (lower_str b) month_abbrs)) (py_int d)
                  (hour_of_12h (py_int i) (lower_str p)) (py_int mi) 0
  | _ => None
  end.

(** [parse_instagram_date]: each [try ... except ValueError: pass]. *)
Definition parse_instagram_date (date_str : string) : option datetime :=
  match strptime_exif date_str with
  | Some d => Some d
  | None =>
      match strptime_display date_str with
      | Some d => Some d
      | None => None
      end
  end.

(** [strftime("%Y:%m:%d %H:%M:%S")], with [%Y] zero-padded to four digits
    as the [datetime] documentation specifies. *)
Definition digit_char (n : nat) : ascii := ascii_of_nat (48 + n mod 10).

Definition pad2 (n : nat) : list ascii := [digit_char (n / 10); digit_char n].
Definition pad4 (n : nat) : list ascii :=
  [digit_char (n / 1000); digit_char (n / 100); digit_char (n / 10); digit_char n].

Definition strftime_exif (dt : datetime) : string :=
  string_of_list_ascii
    (pad4 (dt_year dt) ++ [":"%char] ++ pad2 (dt_month dt) ++ [":"%char] ++
     pad2 (dt_day dt) ++ [" "%char] ++ pad2 (dt_hour dt) ++ [":"%char] ++
     pad2 (dt_minute dt) ++ [":"%char] ++ pad2 (dt_second dt)).














(* ------------------------------------------------------------------ *)
(** ** The markup tree (what BeautifulSoup builds from the page) *)

Inductive node :=
| Elem (tag : string) (classes : list string) (attrs : list (string * string))
       (kids : list node)
| Text (s : string).

(** [.descendants]: every node below, in document order. *)
Fixpoint descendants (n : node) : list node :=
  match n with
  | Elem _ _ _ kids => flat_map (fun k => k :: descendants k) kids
  | Text _ => []
  end.

Definition tag_is (t : string) (n : node) : bool :=
  match n with
  | Elem t' _ _ _ => String.eqb t t'
  | Text _ => false
  end.

(** [class_='a b']: one of the classes, or all of them joined by spaces,
    equals the string (BeautifulSoup's multi-valued attribute match). *)
Definition class_is (cls : string) (n : node) : bool :=
  match n with
  | Elem _ cs _ _ => existsb (String.eqb cls) cs || String.eqb (String.concat " " cs) cls
  | Text _ => false
  end.

(** [n.find(tag, class_=cls)] *)
Definition find (t cls : string) (n : node) : option node :=
  List.find (fun d => tag_is t d && class_is cls d) (descendants n).

(** [n.find(tag)] *)
Definition find_tag (t : string) (n : node) : option node :=
  List.find (tag_is t) (descendants n).

(** [n.find_all(tag)] *)
Definition find_all_tag (t : string) (n : node) : list node :=
  filter (tag_is t) (descendants n).

(** [n.find_all(tag, class_=cls)] *)
Definition find_all (t cls : string) (n : node) : list node :=
  filter (fun d => tag_is t d && class_is cls d) (descendants n).

(** [n.get(name)] *)
Definition get_attr (name : string) (n : node) : option string :=
  match n with
  | Elem _ _ attrs _ =>
      match List.find (fun kv => String.eqb (fst kv) name) attrs with
      | Some kv => Some (snd kv)
      | None => None
      end
  | Text _ => None
  end.

Fixpoint drop_spaces (s : list ascii) : list ascii :=
  match s with
  | c :: s' => if is_space c then drop_spaces s' else s
  | [] => []
  end.

(** [str.strip()] *)
Definition py_strip (s : string) : string :=
  string_of_list_ascii
    (rev (drop_spaces (rev (drop_spaces (list_ascii_of_string s))))).

Definition texts (n : node) : list string :=
  flat_map (fun d => match d with Text s => [s] | Elem _ _ _ _ => [] end) (descendants n).

(** [n.get_text(strip=True)]: the stripped strings, empty ones dropped,
    joined with the empty separator. *)
Definition get_text (n : node) : string :=
  String.concat "" (filter (fun s => negb (String.eqb s "")) (map py_strip (texts n))).

Definition POST_CLASS : string := "pam _3-95 _2ph- _a6-g uiBoxWhite noborder".
Definition DATE_CLASS : string := "_3-94 _a6-o".
Definition CELL_CLASS : string := "_a6-q".
Definition IMG_CLASS : string := "_a6_o _3-96".
Definition MARKER : string := "your_instagram_activity".

(* ------------------------------------------------------------------ *)
(** ** Diagnostic output

    The [print] calls made under [if debug:]; the text itself is console
    formatting, so each message is kept as an event. *)

Inductive dbg :=
| DbgDisplayDiv (text : string)
| DbgParsedDisplay (d : datetime)
| DbgRowCount (n : nat)
| DbgLabel (label value : string)
| DbgParsedTable (d : option datetime)
| DbgImageNotFound (path : string)
| DbgNoRoot.

Definition emit (debug : bool) (es : list dbg) : list dbg := if debug then es else [].

(* ------------------------------------------------------------------ *)
(** ** [find_date_in_html] *)

Definition cell_label_value (row : node) : option (option node * option node) :=
  match find_all_tag "td" row with
  | c0 :: c1 :: _ =>
      let label_div := find "div" CELL_CLASS c0 in
      let value_div :=
        match find_tag "div" c1 with
        | Some value_container => find "div" CELL_CLASS value_container
        | None => None
        end in
      Some (label_div, value_div)
  | _ => None
  end.

Fixpoint scan_rows_debug (debug : bool) (rows : list node) : option datetime * list dbg :=
  match rows with
  | [] => (None, [])
  | row :: rows' =>
      let continue_with (l : list dbg) :=
        let '(r, l') := scan_rows_debug debug rows' in (r, l ++ l') in
      match cell_label_value row with
      | Some (Some label_div, value_div) =>
          let label := get_text label_div in
          let l := emit debug [DbgLabel label (match value_div with
                                                | Some vd => get_text vd
                                                | None => "NO VALUE" end)] in
          match value_div with
          | Some vd =>
              if String.eqb label "Date taken" then
                let value := get_text vd in
                if String.eqb value "" then continue_with l
                else
                  let date := parse_instagram_date value in
                  (date, l ++ emit debug [DbgParsedTable date])
              else continue_with l
          | None => continue_with l
          end
      | _ => continue_with []
      end
  end.

Definition find_date_in_html (soup : node) (debug : bool) : option datetime * list dbg :=
  let '(early, log0) :=
    match find "div" DATE_CLASS soup with
    | Some date_div =>
        let date_text := get_text date_div in
        match parse_instagram_date date_text with
        | Some d => (Some d, emit debug [DbgDisplayDiv date_text; DbgParsedDisplay d])
        | None => (None, emit debug [DbgDisplayDiv date_text])
        end
    | None => (None, [])
    end in
  match early with
  | Some d => (Some d, log0)
  | None =>
      let rows := find_all_tag "tr" soup in
      let '(r, log1) := scan_rows_debug debug rows in
      (r, log0 ++ emit debug [DbgRowCount (length rows)] ++ log1)
  end.

(* ------------------------------------------------------------------ *)
(** ** [find_images_in_html] *)

(** The body of the table loop: the value string of a row that ends the
    scan ([label == "Date taken"] and a non-empty value), if any. *)
Definition row_label_value (row : node) : option (string * string) :=
  match cell_label_value row with
  | Some (Some label_div, Some value_div) => Some (get_text label_div, get_text value_div)
  | _ => None
  end.

Definition row_date_value (row : node) : option string :=
  match row_label_value row with
  | Some (label, value) =>
      if String.eqb label "Date taken" then
        if String.eqb value "" then None else Some value
      else None
  | None => None
  end.

(** [for row in rows: ... date = parse_instagram_date(value); break] *)
Fixpoint table_date (rows : list node) : option datetime :=
  match rows with
  | [] => None
  | row :: rows' =>
      match row_date_value row with
      | Some value => parse_instagram_date value
      | None => table_date rows'
      end
  end.

Definition post_date (post : node) : option datetime :=
  let date :=
    match find "div" DATE_CLASS post with
    | Some date_div => parse_instagram_date (get_text date_div)
    | None => None
    end in
  match date with
  | Some d => Some d
  | None => table_date (find_all_tag "tr" post)
  end.

(** [pathlib.PurePosixPath]: the parts of a path string. *)
Fixpoint split_slash (s : list ascii) (cur : list ascii) : list (list ascii) :=
  match s with
  | [] => [rev cur]
  | c :: s' => if Ascii.eqb c "/" then rev cur :: split_slash s' [] else split_slash s' (c :: cur)
  end.

Definition path_root (s : list ascii) : list ascii * list ascii :=
  match s with
  | c1 :: c2 :: c3 :: r =>
      if lit "/" c1 then
        if lit "/" c2 && negb (lit "/" c3) then (["/"; "/"]%char, c3 :: r)
        else (["/"]%char, c2 :: c3 :: r)
      else ([], s)
  | c1 :: r =>
      if lit "/" c1 then
        match r with
        | [c2] => if lit "/" c2 then (["/"; "/"]%char, []) else (["/"]%char, r)
        | _ => (["/"]%char, r)
        end
      else ([], s)
  | [] => ([], [])
  end.

Definition path_parts (p : string) : list string :=
  let '(root, rel) := path_root (list_ascii_of_string p) in
  let segs := filter (fun seg => negb (String.eqb seg "" || String.eqb seg "."))
                (map string_of_list_ascii (split_slash rel [])) in
  match root with
  | [] => segs
  | _ => string_of_list_ascii root :: segs
  end.

Definition is_anchor (part : string) : bool := String.eqb part "/" || String.eqb part "//".

(** [root_path / img_path]: an absolute right operand replaces the left. *)
Definition path_join (base rel : list string) : list string :=
  match rel with
  | a :: _ => if is_anchor a then rel else base ++ rel
  | [] => base
  end.

(** [str(path)] *)
Definition path_str (parts : list string) : string :=
  match parts with
  | [] => "."
  | a :: rest => if is_anchor a then a +:+ String.concat "/" rest
                 else String.concat "/" parts
  end.

(** [list.index]: [None] is the [ValueError]. *)
Fixpoint list_index (x : string) (l : list string) : option nat :=
  match l with
  | [] => None
  | y :: l' => if String.eqb x y then Some 0 else option_map S (list_index x l')
  end.

Inductive resolution := Resolved (p : string) | NotFound (p : string) | NoRoot.

(** Lines 128-134 of [find_images_in_html]. *)
Definition resolve_media (path_exists : string -> bool) (html_file_path img_path : string)
  : resolution :=
  let parts := path_parts html_file_path in
  match list_index MARKER parts with
  | None => NoRoot
  | Some activity_idx =>
      let full_path := path_join (firstn activity_idx parts) (path_parts img_path) in
      if path_exists (path_str full_path) then Resolved (path_str full_path)
      else NotFound (path_str full_path)
  end.

(** One iteration of the post loop: the records it appends and the
    diagnostic messages it prints. *)
Definition post_records (path_exists : string -> bool) (html_file_path : string)
    (debug : bool) (post : node) : list (string * datetime) * list dbg :=
  let date := post_date post in
  match find "img" IMG_CLASS post with
  | Some img_tag =>
      match get_attr "src" img_tag, date with
      | Some img_path, Some d =>
          if String.eqb img_path "" then ([], [])
          else
            match resolve_media path_exists html_file_path img_path with
            | Resolved full => ([(full, d)], [])
            | NotFound full => ([], emit debug [DbgImageNotFound full])
            | NoRoot => ([], emit debug [DbgNoRoot])
            end
      | _, _ => ([], [])
      end
  | None => ([], [])
  end.

Definition find_images_in_html (path_exists : string -> bool) (soup : node)
    (html_file_path : string) (debug : bool) : list (string * datetime) * list dbg :=
  let posts := find_all "div" POST_CLASS soup in
  let rs := map (post_records path_exists html_file_path debug) posts in
  (concat (map fst rs), concat (map snd rs)).

(* ------------------------------------------------------------------ *)
(** ** [update_image_metadata]

    The file system maps paths to files. A computation returns a value or
    raises (any [Exception]); the file system is threaded through both. *)

Record file := mk_file { f_data : list Byte.byte; f_atime : Z; f_mtime : Z }.

Inductive outcome (A : Type) := Ret (a : A) | Raise.
Arguments Ret {A} a.
Arguments Raise {A}.

Definition M (A : Type) : Type := gmap string file -> outcome A * gmap string file.

Global Instance M_ret : MRet M := fun A a fs => (Ret a, fs).
Global Instance M_bind : MBind M := fun A B f m fs =>
  match m fs with
  | (Ret a, fs') => f a fs'
  | (Raise, fs') => (Raise, fs')
  end.

Definition raise {A} : M A := fun fs => (Raise, fs).

(** [try: m except: h] *)
Definition try_except {A} (m : M A) (h : M A) : M A := fun fs =>
  match m fs with
  | (Ret a, fs') => (Ret a, fs')
  | (Raise, fs') => h fs'
  end.

(** piexif's dictionary: the four IFDs written by the code. *)
Record exif_dict := mk_exif {
  ifd_0th : list (Z * string); ifd_exif : list (Z * string);
  ifd_gps : list (Z * string); ifd_1st : list (Z * string) }.

(** [{"0th": {}, "Exif": {}, "GPS": {}, "1st": {}}] *)
Definition empty_exif : exif_dict := mk_exif [] [] [] [].

(** [d[k] = v] on one IFD. *)
Fixpoint ifd_set (k : Z) (v : string) (d : list (Z * string)) : list (Z * string) :=
  match d with
  | [] => [(k, v)]
  | (k', v') :: d' => if Z.eqb k k' then (k, v) :: d' else (k', v') :: ifd_set k v d'
  end.

Definition ImageIFD_DateTime : Z := 306.
Definition ExifIFD_DateTimeOriginal : Z := 36867.
Definition ExifIFD_DateTimeDigitized : Z := 36868.

(** Lines 168-170. *)
Definition set_exif_dates (exif_date : string) (d : exif_dict) : exif_dict :=
  let d0 := mk_exif (ifd_set ImageIFD_DateTime exif_date (ifd_0th d))
                    (ifd_exif d) (ifd_gps d) (ifd_1st d) in
  let d1 := mk_exif (ifd_0th d0)
                    (ifd_set ExifIFD_DateTimeOriginal exif_date (ifd_exif d0))
                    (ifd_gps d0) (ifd_1st d0) in
  mk_exif (ifd_0th d1)
          (ifd_set ExifIFD_DateTimeDigitized exif_date (ifd_exif d1))
          (ifd_gps d1) (ifd_1st d1).

(** What the libraries do: where they raise, and what they compute. *)
Record env := mk_env {
  copy_fault : option (option file);
    (** [shutil.copy2] raises; [Some f]: a partial backup [f] was written *)
  open_fails : bool;                               (** [Image.open] raises *)
  exif_load : list Byte.byte -> option exif_dict;  (** [piexif.load]; [None]: raises *)
  exif_dump : exif_dict -> option (list Byte.byte);  (** [piexif.dump]; [None]: raises *)
  img_encode : list Byte.byte -> list Byte.byte -> list Byte.byte;
    (** the bytes [img.save] writes for the opened image and EXIF block *)
  save_fault : option (option (list Byte.byte));
    (** [img.save] raises; [Some b]: the target was left holding [b] *)
  now : Z;                                         (** clock at a write *)
  epoch : datetime -> option Z;   (** [date_taken.timestamp()]; [None]: raises *)
  utime_fails : bool;                              (** [os.utime] raises *)
  remove_fails : bool;    (** [os.remove] raises, the file stays *)
  move_fails : bool       (** [shutil.move] raises *)
}.

Section Effects.
Variable E : env.

(** [os.path.exists] *)
Definition path_exists (p : string) : M bool := fun fs =>
  match fs !! p with Some _ => (Ret true, fs) | None => (Ret false, fs) end.

(** [shutil.copy2(src, dst)]: contents and times. *)
Definition copy2 (src dst : string) : M unit := fun fs =>
  match fs !! src with
  | None => (Raise, fs)
  | Some f =>
      match copy_fault E with
      | None => (Ret tt, <[dst := f]> fs)
      | Some None => (Raise, fs)
      | Some (Some partial) => (Raise, <[dst := partial]> fs)
      end
  end.

(** [Image.open(p)]: the image as it is now. *)
Definition image_open (p : string) : M (list Byte.byte) := fun fs =>
  match fs !! p with
  | None => (Raise, fs)
  | Some f => if open_fails E then (Raise, fs) else (Ret (f_data f), fs)
  end.

Definition piexif_load (p : string) : M exif_dict := fun fs =>
  match fs !! p with
  | None => (Raise, fs)
  | Some f => match exif_load E (f_data f) with
              | Some d => (Ret d, fs)
              | None => (Raise, fs)
              end
  end.

Definition piexif_dump (d : exif_dict) : M (list Byte.byte) := fun fs =>
  match exif_dump E d with Some b => (Ret b, fs) | None => (Raise, fs) end.

(** [img.save(p, exif=exif_bytes, quality=95)] *)
Definition img_save (img : list Byte.byte) (p : string) (exif_bytes : list Byte.byte) : M unit :=
  fun fs =>
  let atime := match fs !! p with Some f => f_atime f | None => now E end in
  match save_fault E with
  | None => (Ret tt, <[p := mk_file (img_encode E img exif_bytes) atime (now E)]> fs)
  | Some None => (Raise, fs)
  | Some (Some b) => (Raise, <[p := mk_file b atime (now E)]> fs)
  end.

Definition py_timestamp (d : datetime) : M Z := fun fs =>
  match epoch E d with Some t => (Ret t, fs) | None => (Raise, fs) end.

(** [os.utime(p, (t, t))] *)
Definition os_utime (p : string) (t : Z) : M unit := fun fs =>
  match fs !! p with
  | None => (Raise, fs)
  | Some f => if utime_fails E then (Raise, fs) else (Ret tt, <[p := mk_file (f_data f) t t]> fs)
  end.

(** [os.remove(p)] *)
Definition os_remove (p : string) : M unit := fun fs =>
  match fs !! p with
  | None => (Raise, fs)
  | Some _ => if remove_fails E then (Raise, fs) else (Ret tt, delete p fs)
  end.

(** [shutil.move(src, dst)]: a rename that replaces [dst]. *)
Definition shutil_move (src dst : string) : M unit := fun fs =>
  match fs !! src with
  | None => (Raise, fs)
  | Some f => if move_fails E then (Raise, fs) else (Ret tt, <[dst := f]> (delete src fs))
  end.

Definition backup_name (image_path : string) : string := image_path +:+ ".backup".

(** The [try] block of [update_image_metadata] (lines 151-186); the
    [print] calls are console output and do nothing here. *)
Definition update_steps (image_path backup_path : string) (date_taken : datetime) : M bool :=
  copy2 image_path backup_path;;
  img ← image_open image_path;
  let exif_date := strftime_exif date_taken in
  exif_dict ← try_except (piexif_load image_path) (mret empty_exif : M exif_dict);
  let exif_dict := set_exif_dates exif_date exif_dict in
  exif_bytes ← piexif_dump exif_dict;
  img_save img image_path exif_bytes;;
  timestamp ← py_timestamp date_taken;
  os_utime image_path timestamp;;
  os_remove backup_path;;
  mret true.

(** The [except Exception] branch (lines 189-193). *)
Definition restore_backup (image_path backup_path : string) : M bool :=
  b ← path_exists backup_path;
  if (b : bool) then shutil_move backup_path image_path;; mret false else mret false.

(** [update_image_metadata(image_path, date_taken)] *)
Definition update_image_metadata (image_path : string) (date_taken : datetime) : M bool :=
  ex ← path_exists image_path;
  if negb ex then mret false
  else
    let backup_path := backup_name image_path in
    try_except (update_steps image_path backup_path date_taken)
               (restore_backup image_path backup_path).

End Effects.

(** Spec-side: the EXIF dictionary the code writes for a target whose
    current contents are [f] ([piexif.load], or the empty dictionary). *)
Definition written_exif (E : env) (f : file) (d : datetime) : exif_dict :=
  set_exif_dates (strftime_exif d)
    (match exif_load E (f_data f) with Some x => x | None => empty_exif end).

(** Spec-side: one of the steps after the backup raises (opening, dumping
    the EXIF block, re-encoding, the time stamp, [os.utime], [os.remove]). *)
Definition writer_step_fails (E : env) (f : file) (d : datetime) : bool :=
  open_fails E || bool_decide (exif_dump E (written_exif E f d) = None) ||
  bool_decide (save_fault E <> None) || bool_decide (epoch E d = None) ||
  utime_fails E || remove_fails E.

(** Spec-side reading of the machine grammar [YYYY:MM:DD HH:MM:SS] with
    every field written with exactly its number of digits: the fields as
    numbers, or [None] when the string does not have that shape. *)
Definition val2 (a b : ascii) : nat := digit_val a * 10 + digit_val b.
Definition val4 (a b c d : ascii) : nat :=
  ((digit_val a * 10 + digit_val b) * 10 + digit_val c) * 10 + digit_val d.

Definition spec_exif_fields (s : string) : option datetime :=
  match list_ascii_of_string s with
  | [y1; y2; y3; y4; c1; m1; m2; c2; d1; d2; sp; h1; h2; c3; i1; i2; c4; s1; s2] =>
      if forallb is_digit [y1; y2; y3; y4; m1; m2; d1; d2; h1; h2; i1; i2; s1; s2]
         && lit ":" c1 && lit ":" c2 && lit " " sp && lit ":" c3 && lit ":" c4
      then Some (mk_dt (val4 y1 y2 y3 y4) (val2 m1 m2) (val2 d1 d2)
                       (val2 h1 h2) (val2 i1 i2) (val2 s1 s2))
      else None
  | _ => None
  end.


(* ------------------------------------------------------------------ *)
(** ** Characters a compiled format can consume *)




(* ------------------------------------------------------------------ *)
(** ** Sample inputs *)

(** A [<div class="_a6-q">] cell. *)
Definition cell (t : string) : node := Elem "div" ["_a6-q"] [] [Text t].

(** A metadata-table row: label cell, then the value inside a wrapper div. *)
Definition table_row (label value : string) : node :=
  Elem "tr" [] []
    [Elem "td" [] [] [cell label]; Elem "td" [] [] [Elem "div" [] [] [cell value]]].

Definition post_classes : list string :=
  ["pam"; "_3-95"; "_2ph-"; "_a6-g"; "uiBoxWhite"; "noborder"].

Definition sample_img : node :=
  Elem "img" ["_a6_o"; "_3-96"] [("src", "media/posts/photo.jpg")] [].

(** A post with a display date and a [Date taken] row that disagree. *)
Definition post_both : node :=
  Elem "div" post_classes []
    [Elem "div" ["_3-94"; "_a6-o"] [] [Text "Jan 01, 2020 12:00 am"];
     Elem "table" [] [] [table_row "Date taken" "2020:01:02 00:00:00"];
     sample_img].

(** A post with a table only; a parseable value under another label comes first. *)
Definition post_table : node :=
  Elem "div" post_classes []
    [Elem "table" [] []
       [table_row "Date modified" "2018:01:01 00:00:00";
        table_row "Date taken" "2019:05:05 05:05:05"];
     sample_img].

Definition sample_doc : string := "export/your_instagram_activity/media/posts_1.html".

Definition sample_exists (p : string) : bool := String.eqb p "export/media/posts/photo.jpg".

Definition sample_file : file := mk_file [Byte.x01; Byte.x02] 10%Z 20%Z.

Definition sample_fs : gmap string file := {[ "a.jpg" := sample_file ]}.

Definition sample_date : datetime := mk_dt 2021 3 15 10 30 0.

(** An environment: which of [piexif.load], [img.save] and [os.remove] raise. *)
Definition sample_env (load_ok : bool) (save : option (option (list Byte.byte)))
    (rm_fails : bool) : env :=
  mk_env None false (fun _ => if load_ok then Some empty_exif else None)
    (fun _ => Some [Byte.x03]) (fun img ex => img ++ ex) save 99%Z
    (fun _ => Some 1000%Z) false rm_fails false.

(** A file system holding an activity page and the media file it refers to. *)
Definition sample_page_fs : gmap string file :=
  <[sample_doc := mk_file [] 0 0]> {[ "export/media/posts/photo.jpg" := sample_file ]}.


(* ------------------------------------------------------------------ *)
(** ** [process_html_file] *)

(** [os.path.exists] / [Path.exists()] as a test on the file system. *)
Definition exists_in (fs : gmap string file) (p : string) : bool :=
  match fs !! p with Some _ => true | None => false end.

(** [for image_path, date_taken in images_with_dates: if update_image_metadata(...):
    success_count += 1] *)
Fixpoint update_all (E : env) (images : list (string * datetime)) (success_count : nat)
  : M nat :=
  match images with
  | [] => mret success_count
  | (image_path, date_taken) :: rest =>
      ok ← update_image_metadata E image_path date_taken;
      update_all E rest (if (ok : bool) then S success_count else success_count)
  end.

(** [process_html_file(html_file_path, export_root, debug)]. [html_parse]
    is [f.read()] (UTF-8) followed by [BeautifulSoup(..., 'html.parser')];
    [None]: it raises. [export_root] is unused by the code. *)
Definition process_html_file (E : env) (html_parse : list Byte.byte -> option node)
    (html_file_path : string) (export_root : string) (debug : bool) : M nat :=
  try_except
    (fun fs =>
       match fs !! html_file_path with
       | None => (Raise, fs)
       | Some f =>
           match html_parse (f_data f) with
           | None => (Raise, fs)
           | Some soup =>
               let images_with_dates :=
                 fst (find_images_in_html (exists_in fs) soup html_file_path debug) in
               match images_with_dates with
               | [] => (Ret 0, fs)
               | _ => update_all E images_with_dates 0 fs
               end
           end
       end)
    (mret 0).

(** The records [process_html_file] finds in the file system [fs]. *)
Definition records_of (html_parse : list Byte.byte -> option node)
    (html_file_path : string) (debug : bool) (fs : gmap string file)
  : list (string * datetime) :=
  match fs !! html_file_path with
  | Some f =>
      match html_parse (f_data f) with
      | Some soup => fst (find_images_in_html (exists_in fs) soup html_file_path debug)
      | None => []
      end
  | None => []
  end.

(** The paths a run may write: each record's target and its backup. *)
Definition touched (images : list (string * datetime)) : list string :=
  flat_map (fun r => [fst r; backup_name (fst r)]) images.

(** A computation that writes no path outside [S]. *)
Definition frame {A} (S : list string) (m : M A) : Prop :=
  forall fs q, ~ In q S -> snd (m fs) !! q = fs !! q.

(* ------------------------------------------------------------------ *)
(** ** EXIF dictionary lookup *)

(** [d.get(k)] on one IFD. *)
Definition ifd_get (k : Z) (d : list (Z * string)) : option string :=
  match List.find (fun kv => Z.eqb (fst kv) k) d with
  | Some kv => Some (snd kv)
  | None => None
  end.

(* ------------------------------------------------------------------ *)
(** ** Letter case *)

(** [s.lower()] on ASCII strings. *)
Definition lower_string (s : string) : string :=
  string_of_list_ascii (lower_str (list_ascii_of_string s)).

Definition class_lower (p : ascii -> bool) : Prop := forall c, p (lower c) = p c.

Definition item_lower (it : item) : Prop :=
  match it with
  | ILit p => class_lower p
  | IWs => class_lower is_space
  | IGroup alts => Forall (Forall class_lower) alts
  end.

(* ------------------------------------------------------------------ *)
(** ** [main]: the HTML files of the command line *)

(** [str.rfind('.')]: the index of the last dot. *)
Fixpoint rfind_dot (l : list ascii) : option nat :=
  match l with
  | [] => None
  | c :: l' =>
      match rfind_dot l' with
      | Some i => Some (S i)
      | None => if Ascii.eqb c "." then Some 0 else None
      end
  end.

(** [PurePath.suffix] of a name: [name[i:]] when [0 < i < len(name) - 1]. *)
Definition path_suffix (name : string) : string :=
  let l := list_ascii_of_string name in
  match rfind_dot l with
  | Some i => if (0 <? i) && (i <? length l - 1) then string_of_list_ascii (skipn i l) else ""
  | None => ""
  end.

(** [PurePath.name]: the last part, empty for an anchor or no part. *)
Definition path_name (p : string) : string :=
  match last (path_parts p) with
  | Some n => if is_anchor n then "" else n
  | None => ""
  end.

(** [path.suffix.lower() == '.html'] *)
Definition html_suffix (p : string) : bool :=
  String.eqb (lower_string (path_suffix (path_name p))) ".html".

Inductive path_kind := PMissing | PFile | PDir.

(** Lines 248-272 of [main]: the files it processes, [None] when it stops
    with an error message. [globbed] is [path.glob(pattern)]. *)
Definition collect_html_files (kind : path_kind) (path : string) (globbed : list string)
  : option (list string) :=
  match kind with
  | PMissing => None
  | PFile => if html_suffix path then Some [path] else None
  | PDir => match globbed with [] => None | _ => Some globbed end
  end.

(** The processing loop of [main]: [success_count] over the files. *)
Fixpoint main_loop (E : env) (html_parse : list Byte.byte -> option node)
    (export_root : string) (debug : bool) (html_files : list string) (success_count : nat)
  : M nat :=
  match html_files with
  | [] => mret success_count
  | html_file :: rest =>
      count ← process_html_file E html_parse html_file export_root debug;
      main_loop E html_parse export_root debug rest (success_count + count)
  end.

(* ------------------------------------------------------------------ *)
(** ** Facts about the compiled formats *)

Ltac nat_divmod :=
  zify; repeat (rewrite Nat2Z.inj_mod || rewrite Nat2Z.inj_div);
  simpl Z.of_nat; Z.div_mod_to_equations; lia.

Lemma digit_char_mod (n : nat) : digit_char n = digit_char (n mod 10).
Proof. unfold digit_char. by rewrite Nat.Div0.mod_mod. Qed.

Lemma digit_char_props (k : nat) :
  is_digit (digit_char k) = true /\ is_space (digit_char k) = false /\
  digit_val (digit_char k) = k mod 10.
Proof.
  unfold digit_char. pose proof (Nat.mod_upper_bound k 10 ltac:(lia)).
  remember (k mod 10) as j eqn:Ej. clear Ej.
  do 10 (destruct j as [|j]; [repeat split; reflexivity|]). lia.
Qed.

Lemma digit_char_is_digit (k : nat) : is_digit (digit_char k) = true.
Proof. apply digit_char_props. Qed.

Lemma digit_char_not_space (k : nat) : is_space (digit_char k) = false.
Proof. apply digit_char_props. Qed.

Lemma digit_val_char (k : nat) : digit_val (digit_char k) = k mod 10.
Proof. apply digit_char_props. Qed.

Lemma py_int_pad2 (n : nat) : n < 100 -> py_int (pad2 n) = n.
Proof.
  intros Hn. unfold py_int, pad2. cbn [fold_left].
  rewrite !digit_char_is_digit, !digit_val_char. nat_divmod.
Qed.

Lemma py_int_pad4 (n : nat) : n < 10 * 10 * 10 * 10 -> py_int (pad4 n) = n.
Proof.
  intros Hn. unfold py_int, pad4. cbn [fold_left].
  rewrite !digit_char_is_digit, !digit_val_char. nat_divmod.
Qed.

Lemma re_match_lit (c : ascii) its rest x :
  re_match its rest = Some x -> re_match (ILit (lit c) :: its) (c :: rest) = Some x.
Proof. intros H. simpl. unfold lit. by rewrite Ascii.eqb_refl. Qed.

Lemma re_match_ws_one (c : ascii) its rest x :
  is_space c = false -> re_match its (c :: rest) = Some x ->
  re_match (IWs :: its) (" "%char :: c :: rest) = Some x.
Proof. intros Hc H. simpl. rewrite Hc. simpl. by rewrite H. Qed.

Lemma re_match_Y (y : nat) its rest caps r :
  re_match its rest = Some (caps, r) ->
  re_match (re_Y :: its) (pad4 y ++ rest) = Some (pad4 y :: caps, r).
Proof.
  intros H. cbn [re_match re_Y pad4 app take_alt].
  rewrite !digit_char_is_digit. by rewrite H.
Qed.

Ltac field_cases n H :=
  repeat (destruct n as [|n];
          [first [lia | simpl; rewrite H; reflexivity] | try lia]).

Lemma re_match_m (n : nat) its rest caps r :
  1 <= n <= 12 -> re_match its rest = Some (caps, r) ->
  re_match (re_m :: its) (pad2 n ++ rest) = Some (pad2 n :: caps, r).
Proof. intros Hn H. field_cases n H. Qed.

Lemma re_match_d (n : nat) its rest caps r :
  1 <= n <= 31 -> re_match its rest = Some (caps, r) ->
  re_match (re_d :: its) (pad2 n ++ rest) = Some (pad2 n :: caps, r).
Proof. intros Hn H. field_cases n H. Qed.

Lemma re_match_H (n : nat) its rest caps r :
  n <= 23 -> re_match its rest = Some (caps, r) ->
  re_match (re_H :: its) (pad2 n ++ rest) = Some (pad2 n :: caps, r).
Proof. intros Hn H. field_cases n H. Qed.

Lemma re_match_M (n : nat) its rest caps r :
  n <= 59 -> re_match its rest = Some (caps, r) ->
  re_match (re_M :: its) (pad2 n ++ rest) = Some (pad2 n :: caps, r).
Proof. intros Hn H. field_cases n H. Qed.

Lemma re_match_S (n : nat) its rest caps r :
  n <= 59 -> re_match its rest = Some (caps, r) ->
  re_match (re_S :: its) (pad2 n ++ rest) = Some (pad2 n :: caps, r).
Proof. intros Hn H. field_cases n H. Qed.

Lemma datetime_ok_bounds (dt : datetime) :
  datetime_ok dt = true ->
  1 <= dt_year dt < 10 * 10 * 10 * 10 /\ 1 <= dt_month dt <= 12 /\
  1 <= dt_day dt <= 31 /\ dt_hour dt <= 23 /\ dt_minute dt <= 59 /\ dt_second dt <= 59.
Proof.
  destruct dt as [y mo d h mi s]. unfold datetime_ok.
  cbn [dt_year dt_month dt_day dt_hour dt_minute dt_second]. intros H. repeat rewrite andb_true_iff in H.
  destruct H as [[[[[[[[Hy1 Hy2] Hm1] Hm2] Hd1] Hd2] Hh] Hmi] Hs].
  apply Nat.leb_le in Hy1, Hm1, Hm2, Hd1, Hd2, Hh, Hmi, Hs.
  assert (days_in_month y mo <= 31) by (unfold days_in_month; repeat case_match; lia).
  assert (y < 10 * 10 * 10 * 10).
  { assert (E : (9999 : nat) = 10 * 10 * 10 * 10 - 1) by (vm_compute; reflexivity).
    rewrite E in Hy2. apply Nat.leb_le in Hy2. lia. }
  lia.
Qed.

Lemma strptime_exif_strftime (dt : datetime) :
  datetime_ok dt = true -> strptime_exif (strftime_exif dt) = Some dt.
Proof.
  intros Hok. pose proof (datetime_ok_bounds dt Hok) as (Hy & Hm & Hd & Hh & Hmi & Hs).
  unfold strptime_exif, strftime_exif. rewrite list_ascii_of_string_of_list_ascii.
  destruct dt as [y mo d h mi s];
    cbn [dt_year dt_month dt_day dt_hour dt_minute dt_second] in *.
  assert (Hre : re_match exif_format_re
     (pad4 y ++ [":"%char] ++ pad2 mo ++ [":"%char] ++ pad2 d ++ [" "%char] ++
      pad2 h ++ [":"%char] ++ pad2 mi ++ [":"%char] ++ pad2 s)
     = Some ([pad4 y; pad2 mo; pad2 d; pad2 h; pad2 mi; pad2 s], [])).
  { unfold exif_format_re.
    apply re_match_Y. apply re_match_lit.
    apply re_match_m; [lia|]. apply re_match_lit.
    apply re_match_d; [lia|]. apply re_match_ws_one; [apply digit_char_not_space|].
    change (digit_char (h / 10) :: digit_char h :: ?r) with (pad2 h ++ r).
    apply re_match_H; [lia|]. apply re_match_lit.
    apply re_match_M; [lia|]. apply re_match_lit.
    rewrite <- (app_nil_r (pad2 s)).
    apply re_match_S; [lia|]. reflexivity. }
  rewrite Hre.
  rewrite py_int_pad4, !py_int_pad2 by lia.
  unfold mk_datetime. by rewrite Hok.
Qed.

(** Sample inputs of the parser. *)

Example parse_ex1 : parse_instagram_date "2024:09:24 15:42:54" = Some (mk_dt 2024 9 24 15 42 54).
Proof. reflexivity. Qed.
Example parse_ex2 : parse_instagram_date "Aug 06, 2012 4:13 pm" = Some (mk_dt 2012 8 6 16 13 0).
Proof. reflexivity. Qed.
Example parse_ex3 : parse_instagram_date "Jan 01, 2020 12:00 am" = Some (mk_dt 2020 1 1 0 0 0).
Proof. reflexivity. Qed.
Example parse_ex4 : parse_instagram_date "2012-08-06" = None.
Proof. reflexivity. Qed.
Example parse_ex5 : parse_instagram_date "2024:02:30 15:42:54" = None.
Proof. reflexivity. Qed.
Example parse_ex6 : parse_instagram_date "2024:09:24 15:42:5" = Some (mk_dt 2024 9 24 15 42 5).
Proof. reflexivity. Qed.
Example fmt_ex : strftime_exif (mk_dt 2021 3 15 10 30 0) = "2021:03:15 10:30:00".
Proof. reflexivity. Qed.

Lemma digit_val_lt (a : ascii) : is_digit a = true -> digit_val a < 10.
Proof.
  destruct a as [[] [] [] [] [] [] [] []]; vm_compute; intros H;
    try discriminate; lia.
Qed.

Lemma digit_char_val (a : ascii) : is_digit a = true -> digit_char (digit_val a) = a.
Proof.
  destruct a as [[] [] [] [] [] [] [] []]; vm_compute; intros H;
    try discriminate; reflexivity.
Qed.

Lemma digit_char_shift (a : ascii) (k : nat) :
  is_digit a = true -> digit_char (k * 10 + digit_val a) = a.
Proof.
  intros Ha. pose proof (digit_val_lt a Ha).
  rewrite digit_char_mod.
  replace ((k * 10 + digit_val a) mod 10) with (digit_val a) by nat_divmod.
  by apply digit_char_val.
Qed.

Lemma pad2_val2 (a b : ascii) :
  is_digit a = true -> is_digit b = true -> pad2 (val2 a b) = [a; b].
Proof.
  intros Ha Hb. pose proof (digit_val_lt a Ha). pose proof (digit_val_lt b Hb).
  unfold pad2, val2. rewrite digit_char_shift by done.
  replace ((digit_val a * 10 + digit_val b) / 10) with (0 * 10 + digit_val a)
    by nat_divmod.
  by rewrite digit_char_shift.
Qed.

Lemma pad4_val4 (a b c d : ascii) :
  is_digit a = true -> is_digit b = true -> is_digit c = true -> is_digit d = true ->
  pad4 (val4 a b c d) = [a; b; c; d].
Proof.
  intros Ha Hb Hc Hd.
  pose proof (digit_val_lt a Ha). pose proof (digit_val_lt b Hb).
  pose proof (digit_val_lt c Hc). pose proof (digit_val_lt d Hd).
  unfold pad4, val4.
  rewrite (digit_char_shift d) by done.
  replace ((((digit_val a * 10 + digit_val b) * 10 + digit_val c) * 10 + digit_val d) / 10)
    with ((digit_val a * 10 + digit_val b) * 10 + digit_val c) by nat_divmod.
  replace ((((digit_val a * 10 + digit_val b) * 10 + digit_val c) * 10 + digit_val d) / 100)
    with (digit_val a * 10 + digit_val b) by nat_divmod.
  replace ((((digit_val a * 10 + digit_val b) * 10 + digit_val c) * 10 + digit_val d) / 1000)
    with (0 * 10 + digit_val a) by nat_divmod.
  by rewrite !digit_char_shift.
Qed.

Lemma lit_true (c x : ascii) : lit c x = true -> x = c.
Proof. unfold lit. apply Ascii.eqb_eq. Qed.

Lemma spec_exif_fields_strftime (s : string) (dt : datetime) :
  spec_exif_fields s = Some dt -> strftime_exif dt = s.
Proof.
  unfold spec_exif_fields.
  rewrite <- (string_of_list_ascii_of_string s) at 2.
  destruct (list_ascii_of_string s) as
    [|y1 [|y2 [|y3 [|y4 [|c1 [|m1 [|m2 [|c2 [|d1 [|d2 [|sp [|h1 [|h2 [|c3
     [|i1 [|i2 [|c4 [|s1 [|s2 [|]]]]]]]]]]]]]]]]]]]]; try discriminate.
  simpl forallb. intros H. case_match eqn:Hb; [|discriminate].
  injection H as <-. repeat rewrite andb_true_iff in Hb.
  repeat match goal with H : _ /\ _ |- _ => destruct H end.
  repeat match goal with H : lit _ _ = true |- _ => apply lit_true in H end.
  subst.
  unfold strftime_exif. simpl dt_year; simpl dt_month; simpl dt_day;
  simpl dt_hour; simpl dt_minute; simpl dt_second.
  rewrite pad4_val4, !pad2_val2 by done. reflexivity.
Qed.

(* ------------------------------------------------------------------ *)
(** ** Characters consumed by a match *)
















(* ------------------------------------------------------------------ *)
(** ** The record locator *)

Lemma list_index_app (x : string) (pre post : list string) :
  ~ In x pre -> list_index x (pre ++ x :: post) = Some (length pre).
Proof.
  induction pre as [|y pre IH]; intros Hx; simpl.
  - by rewrite String.eqb_refl.
  - destruct (String.eqb_spec x y) as [->|_]; [exfalso; apply Hx; left; done|].
    rewrite IH; [done|]. intros Hin; apply Hx; right; done.
Qed.

Lemma list_index_absent (x : string) (l : list string) :
  ~ In x l -> list_index x l = None.
Proof.
  induction l as [|y l IH]; intros Hx; simpl; [done|].
  destruct (String.eqb_spec x y) as [->|_]; [exfalso; apply Hx; left; done|].
  rewrite IH; [done|]. intros Hin; apply Hx; right; done.
Qed.

(** The dead [find_date_in_html] computes the date [find_images_in_html]
    computes for a post, whatever [debug] is. *)
Lemma scan_rows_table_date (debug : bool) (rows : list node) :
  fst (scan_rows_debug debug rows) = table_date rows.
Proof.
  induction rows as [|row rows IH]; [done|]. simpl.
  unfold row_date_value, row_label_value.
  destruct (cell_label_value row) as [[[ld|] [vd|]]|];
    try (destruct (scan_rows_debug debug rows); exact IH).
  destruct (String.eqb (get_text ld) "Date taken"); [|destruct (scan_rows_debug debug rows); exact IH].
  destruct (String.eqb (get_text vd) ""); [destruct (scan_rows_debug debug rows); exact IH|].
  done.
Qed.

Lemma find_date_in_html_post_date (soup : node) (debug : bool) :
  fst (find_date_in_html soup debug) = post_date soup.
Proof.
  unfold find_date_in_html, post_date.
  destruct (find "div" DATE_CLASS soup) as [dd|];
    [destruct (parse_instagram_date (get_text dd)) as [d|]|]; try done;
    simpl; rewrite <- (scan_rows_table_date debug);
    destruct (scan_rows_debug debug _); done.
Qed.

Lemma post_records_debug (pe : string -> bool) (doc : string) (post : node) :
  fst (post_records pe doc true post) = fst (post_records pe doc false post) /\
  snd (post_records pe doc false post) = [].
Proof.
  unfold post_records.
  destruct (find "img" IMG_CLASS post); [|done].
  destruct (get_attr "src" n), (post_date post); try done.
  destruct (String.eqb s ""); [done|].
  destruct (resolve_media pe doc s); done.
Qed.

(* ------------------------------------------------------------------ *)
(** ** The metadata writer *)

Lemma string_length_app (s t : string) :
  String.length (s +:+ t) = String.length s + String.length t.
Proof. induction s; simpl; auto. Qed.

Lemma backup_name_ne (p : string) : backup_name p <> p.
Proof.
  intros H. apply (f_equal String.length) in H. unfold backup_name in H.
  rewrite string_length_app in H. simpl in H. lia.
Qed.

Lemma bind_ret_eq {A B} (m : M A) (k : A -> M B) fs a fs' :
  m fs = (Ret a, fs') -> (m ≫= k) fs = k a fs'.
Proof. intros H. unfold mbind, M_bind. by rewrite H. Qed.

Lemma bind_raise_eq {A B} (m : M A) (k : A -> M B) fs fs' :
  m fs = (Raise, fs') -> (m ≫= k) fs = (Raise, fs').
Proof. intros H. unfold mbind, M_bind. by rewrite H. Qed.

Lemma bind_ret_inv {A B} (m : M A) (k : A -> M B) fs b s :
  (m ≫= k) fs = (Ret b, s) -> exists a fs', m fs = (Ret a, fs') /\ k a fs' = (Ret b, s).
Proof.
  unfold mbind, M_bind. destruct (m fs) as [[a|] fs']; intros H; [eauto|discriminate].
Qed.

Lemma try_ret_eq {A} (m h : M A) fs a fs' :
  m fs = (Ret a, fs') -> try_except m h fs = (Ret a, fs').
Proof. intros H. unfold try_except. by rewrite H. Qed.

Lemma try_raise_eq {A} (m h : M A) fs fs' :
  m fs = (Raise, fs') -> try_except m h fs = h fs'.
Proof. intros H. unfold try_except. by rewrite H. Qed.

Lemma restore_backup_some E p bk f s :
  s !! bk = Some f -> move_fails E = false ->
  restore_backup E p bk s = (Ret false, <[p := f]> (delete bk s)).
Proof.
  intros Hs Hm. unfold restore_backup.
  rewrite (bind_ret_eq _ _ s true s) by (unfold path_exists; by rewrite Hs).
  rewrite (bind_ret_eq _ _ s tt (<[p := f]> (delete bk s)))
    by (unfold shutil_move; by rewrite Hs, Hm).
  done.
Qed.

Lemma restore_backup_false E p bk s b s' :
  restore_backup E p bk s = (Ret b, s') -> b = false.
Proof.
  unfold restore_backup, mbind, M_bind, mret, M_ret, path_exists, shutil_move.
  repeat case_match; congruence.
Qed.

Lemma update_steps_ret_remove E p bk d fs b s :
  update_steps E p bk d fs = (Ret b, s) -> remove_fails E = false.
Proof.
  unfold update_steps. intros H.
  repeat (apply bind_ret_inv in H as (? & ? & ? & H); cbv beta zeta in H).
  match goal with Hr : os_remove E bk _ = (Ret _, _) |- _ =>
    unfold os_remove in Hr; repeat case_match; congruence end.
Qed.

(** The steps after the backup, for a target holding [f] whose copy
    succeeds: they raise exactly when [writer_step_fails], and the backup
    is still there exactly when they raise. *)
Lemma update_steps_result E fs p bk d f :
  fs !! p = Some f -> copy_fault E = None -> bk <> p ->
  exists s, update_steps E p bk d fs =
              (if writer_step_fails E f d then Raise else Ret true, s) /\
            s !! bk = (if writer_step_fails E f d then Some f else None).
Proof.
  intros Hp Hc Hne. unfold update_steps, writer_step_fails, written_exif.
  rewrite (bind_ret_eq _ _ fs tt (<[bk := f]> fs)) by (unfold copy2; by rewrite Hp, Hc).
  assert (Hp1 : <[bk := f]> fs !! p = Some f) by (rewrite lookup_insert_ne; congruence).
  destruct (open_fails E) eqn:Ho.
  { rewrite (bind_raise_eq _ _ _ (<[bk := f]> fs)) by (unfold image_open; by rewrite Hp1, Ho).
    eexists; split; [reflexivity|]. by rewrite lookup_insert_eq. }
  rewrite (bind_ret_eq _ _ _ (f_data f) (<[bk := f]> fs))
    by (unfold image_open; by rewrite Hp1, Ho).
  cbn [orb].
  set (x := match exif_load E (f_data f) with Some x => x | None => empty_exif end).
  rewrite (bind_ret_eq _ _ _ x (<[bk := f]> fs)).
  2:{ unfold x, try_except, piexif_load. rewrite Hp1.
      destruct (exif_load E (f_data f)); reflexivity. }
  destruct (exif_dump E (set_exif_dates (strftime_exif d) x)) as [b|] eqn:Hd.
  2:{ rewrite (bind_raise_eq _ _ _ (<[bk := f]> fs)) by (unfold piexif_dump; by rewrite Hd).
      eexists; split; [reflexivity|]. by rewrite lookup_insert_eq. }
  rewrite (bind_ret_eq _ _ _ b (<[bk := f]> fs)) by (unfold piexif_dump; by rewrite Hd).
  cbn [bool_decide decide_rel orb]. rewrite bool_decide_eq_false_2 by congruence. cbn [orb].
  set (atime := match <[bk := f]> fs !! p with Some g => f_atime g | None => now E end).
  destruct (save_fault E) as [[b'|]|] eqn:Hs.
  1,2: cbn [bool_decide decide_rel orb];
       rewrite bool_decide_eq_true_2 by congruence; cbn [orb].
  { rewrite (bind_raise_eq _ _ _ (<[p := mk_file b' atime (now E)]> (<[bk := f]> fs)))
      by (unfold img_save; by rewrite Hs).
    eexists; split; [reflexivity|]. rewrite lookup_insert_ne by congruence.
    by rewrite lookup_insert_eq. }
  { rewrite (bind_raise_eq _ _ _ (<[bk := f]> fs)) by (unfold img_save; by rewrite Hs).
    eexists; split; [reflexivity|]. by rewrite lookup_insert_eq. }
  rewrite bool_decide_eq_false_2 by congruence. cbn [orb].
  set (fs2 := <[p := mk_file (img_encode E (f_data f) b) atime (now E)]> (<[bk := f]> fs)).
  rewrite (bind_ret_eq _ _ _ tt fs2) by (unfold img_save; by rewrite Hs).
  assert (Hbk2 : fs2 !! bk = Some f)
    by (unfold fs2; rewrite lookup_insert_ne by congruence; by rewrite lookup_insert_eq).
  destruct (epoch E d) as [t|] eqn:Ht.
  2:{ rewrite (bind_raise_eq _ _ _ fs2) by (unfold py_timestamp; by rewrite Ht).
      rewrite bool_decide_eq_true_2 by congruence. cbn [orb].
      eexists; split; [reflexivity|]. done. }
  rewrite bool_decide_eq_false_2 by congruence. cbn [orb].
  rewrite (bind_ret_eq _ _ _ t fs2) by (unfold py_timestamp; by rewrite Ht).
  assert (Hp2 : fs2 !! p = Some (mk_file (img_encode E (f_data f) b) atime (now E)))
    by (unfold fs2; by rewrite lookup_insert_eq).
  destruct (utime_fails E) eqn:Hu; cbn [orb].
  { rewrite (bind_raise_eq _ _ _ fs2) by (unfold os_utime; by rewrite Hp2, Hu).
    eexists; split; [reflexivity|]. done. }
  set (fs3 := <[p := mk_file (img_encode E (f_data f) b) t t]> fs2).
  rewrite (bind_ret_eq _ _ _ tt fs3) by (unfold os_utime; by rewrite Hp2, Hu).
  assert (Hbk3 : fs3 !! bk = Some f) by (unfold fs3; by rewrite lookup_insert_ne by congruence).
  destruct (remove_fails E) eqn:Hr.
  { rewrite (bind_raise_eq _ _ _ fs3) by (unfold os_remove; by rewrite Hbk3, Hr).
    eexists; split; [reflexivity|]. done. }
  rewrite (bind_ret_eq _ _ _ tt (delete bk fs3)) by (unfold os_remove; by rewrite Hbk3, Hr).
  eexists; split; [reflexivity|]. by rewrite lookup_delete_eq.
Qed.

Lemma update_present E fs p d f :
  fs !! p = Some f -> copy_fault E = None -> move_fails E = false ->
  fst (update_image_metadata E p d fs) = Ret (negb (writer_step_fails E f d)) /\
  snd (update_image_metadata E p d fs) !! backup_name p = None /\
  (fst (update_image_metadata E p d fs) = Ret false ->
   snd (update_image_metadata E p d fs) !! p = Some f).
Proof.
  intros Hp Hc Hm. pose proof (backup_name_ne p) as Hne.
  unfold update_image_metadata.
  rewrite (bind_ret_eq _ _ fs true fs) by (unfold path_exists; by rewrite Hp).
  cbn [negb].
  destruct (update_steps_result E fs p (backup_name p) d f Hp Hc Hne) as (s & Hs & Hbk).
  destruct (writer_step_fails E f d).
  - rewrite (try_raise_eq _ _ _ s) by exact Hs.
    rewrite (restore_backup_some E p (backup_name p) f s Hbk Hm). cbn.
    split; [done|]. split.
    + rewrite lookup_insert_ne by congruence. by rewrite lookup_delete_eq.
    + intros _. by rewrite lookup_insert_eq.
  - rewrite (try_ret_eq _ _ _ true s) by exact Hs. cbn. split; [done|]. split; [done|].
    discriminate.
Qed.

Lemma update_missing E fs p d :
  fs !! p = None -> update_image_metadata E p d fs = (Ret false, fs).
Proof.
  intros Hp. unfold update_image_metadata.
  rewrite (bind_ret_eq _ _ fs false fs) by (unfold path_exists; by rewrite Hp).
  done.
Qed.

Lemma update_true_remove E fs p d :
  fst (update_image_metadata E p d fs) = Ret true -> remove_fails E = false.
Proof.
  destruct (fs !! p) eqn:Hp.
  - unfold update_image_metadata. rewrite (bind_ret_eq _ _ fs true fs) by (unfold path_exists; by rewrite Hp).
    cbn [negb]. unfold try_except.
    destruct (update_steps E p (backup_name p) d fs) as [[b|] s] eqn:Hs.
    + intros _. exact (update_steps_ret_remove _ _ _ _ _ _ _ Hs).
    + destruct (restore_backup E p (backup_name p) s) as [[b|] s'] eqn:Hr;
        simpl; intros H; [|discriminate].
      apply restore_backup_false in Hr. congruence.
  - rewrite (update_missing E fs p d Hp). discriminate.
Qed.

Lemma table_date_first (pre : list node) (r : node) (rest : list node) (v : string) :
  Forall (fun row => row_date_value row = None) pre -> row_date_value r = Some v ->
  table_date (pre ++ r :: rest) = parse_instagram_date v.
Proof.
  intros Hpre Hr. induction Hpre as [|row pre Hrow Hpre IH]; simpl.
  - by rewrite Hr.
  - by rewrite Hrow.
Qed.


(* ------------------------------------------------------------------ *)
(** ** Shapes and fields of a successful match *)



































(* ------------------------------------------------------------------ *)
(** ** The claims *)

(** C1 (MetadataWriter atomicity). For a target [p] holding [f] whose
    backup copy succeeds, and whose restoring move succeeds: the call
    returns [False] exactly when one of the steps after the backup raises
    (opening, [piexif.dump], [img.save], [timestamp()], [os.utime],
    [os.remove]); an exception of [piexif.load] is caught and replaced by
    the empty dictionary, so it is not among them. No [p.backup] is left
    whatever the result, and a [False] result leaves [p] holding exactly
    [f] again. *)
Theorem update_atomic_backup (E : env) (fs : gmap string file) (p : string)
    (d : datetime) (f : file) :
  fs !! p = Some f -> copy_fault E = None -> move_fails E = false ->
  fst (update_image_metadata E p d fs) = Ret (negb (writer_step_fails E f d)) /\
  snd (update_image_metadata E p d fs) !! backup_name p = None /\
  (fst (update_image_metadata E p d fs) = Ret false ->
   snd (update_image_metadata E p d fs) !! p = Some f).
Proof. apply update_present. Qed.

Lemma update_atomic_backup_witness :
  fst (update_image_metadata (sample_env true (Some None) false) "a.jpg" sample_date sample_fs)
    = Ret false /\
  snd (update_image_metadata (sample_env true (Some None) false) "a.jpg" sample_date sample_fs)
    !! "a.jpg.backup" = None /\
  snd (update_image_metadata (sample_env true (Some None) false) "a.jpg" sample_date sample_fs)
    !! "a.jpg" = Some sample_file.
Proof.
  destruct (update_atomic_backup (sample_env true (Some None) false) sample_fs "a.jpg"
              sample_date sample_file) as (H1 & H2 & H3);
    [reflexivity | reflexivity | reflexivity |].
  split; [exact H1|]. split; [exact H2|]. apply H3. exact H1.
Defined.

(** C1, counterexample: [piexif.load] raises on the sample file, and the
    call still returns [True] with the file rewritten; the exception of
    the EXIF load does not restore the target nor fail the call. *)
Lemma update_unreadable_exif_cex :
  exif_load (sample_env false None false) (f_data sample_file) = None /\
  fst (update_image_metadata (sample_env false None false) "a.jpg" sample_date sample_fs)
    = Ret true /\
  snd (update_image_metadata (sample_env false None false) "a.jpg" sample_date sample_fs)
    !! "a.jpg" = Some (mk_file [Byte.x01; Byte.x02; Byte.x03] 1000%Z 1000%Z).
Proof. split; [reflexivity|]. split; vm_compute; reflexivity. Qed.

(** C2 (PathResolver). When the parts of the document path are [pre],
    the marker, then more, with no marker in [pre], the media reference is
    joined onto [pre] and the result is [Resolved] or [NotFound] as the
    joined path exists or not; with no marker in the parts it is [NoRoot];
    a relative reference is appended to [pre]; and a post with an image, a
    non-empty [src] and a date contributes its record exactly when the
    reference is [Resolved]. *)
Theorem resolve_media_root (pe : string -> bool) (doc ref : string) :
  (forall pre post, path_parts doc = pre ++ MARKER :: post -> ~ In MARKER pre ->
     resolve_media pe doc ref =
       if pe (path_str (path_join pre (path_parts ref)))
       then Resolved (path_str (path_join pre (path_parts ref)))
       else NotFound (path_str (path_join pre (path_parts ref)))) /\
  (~ In MARKER (path_parts doc) -> resolve_media pe doc ref = NoRoot) /\
  (forall pre, match path_parts ref with a :: _ => is_anchor a = false | [] => True end ->
     path_join pre (path_parts ref) = pre ++ path_parts ref) /\
  (forall post img d debug,
     find "img" IMG_CLASS post = Some img -> get_attr "src" img = Some ref -> ref <> "" ->
     post_date post = Some d ->
     fst (post_records pe doc debug post) =
       match resolve_media pe doc ref with Resolved full => [(full, d)] | _ => [] end).
Proof.
  split; [|split; [|split]].
  - intros pre post Hparts Hpre. unfold resolve_media.
    rewrite Hparts, (list_index_app _ _ _ Hpre), take_app_length. reflexivity.
  - intros Habs. unfold resolve_media. by rewrite list_index_absent.
  - intros pre Hrel. unfold path_join.
    destruct (path_parts ref) as [|a r]; [by rewrite app_nil_r|]. by rewrite Hrel.
  - intros post img d debug Himg Hsrc Hne Hd. unfold post_records.
    rewrite Himg, Hsrc, Hd.
    destruct (String.eqb_spec ref "") as [->|_]; [contradiction|].
    destruct (resolve_media pe doc ref); reflexivity.
Qed.

Lemma resolve_media_root_witness :
  resolve_media sample_exists sample_doc "media/posts/photo.jpg"
    = Resolved "export/media/posts/photo.jpg".
Proof.
  destruct (resolve_media_root sample_exists sample_doc "media/posts/photo.jpg") as [H _].
  rewrite (H ["export"] ["media"; "posts_1.html"]).
  - reflexivity.
  - reflexivity.
  - simpl. intros [Hm | []]. discriminate.
Defined.

(** C3 (date-source precedence). When the post's display-date block
    parses, that value is the post's date; the table is not read. *)
Theorem display_date_precedence (post dd : node) (d : datetime) :
  find "div" DATE_CLASS post = Some dd -> parse_instagram_date (get_text dd) = Some d ->
  post_date post = Some d.
Proof. intros Hdd Hd. unfold post_date. by rewrite Hdd, Hd. Qed.

Lemma display_date_precedence_witness :
  post_date post_both = Some (mk_dt 2020 1 1 0 0 0) /\
  table_date (find_all_tag "tr" post_both) = Some (mk_dt 2020 1 2 0 0 0).
Proof.
  split; [|reflexivity].
  apply (display_date_precedence post_both
           (Elem "div" ["_3-94"; "_a6-o"] [] [Text "Jan 01, 2020 12:00 am"]));
    reflexivity.
Defined.

(** C4 (metadata-table fallback). When the display date is absent or
    does not parse, and the rows of the post are [pre], then [r], then
    [rest], where no row of [pre] ends the scan and [r] does with value
    [v]: the date is [parse_instagram_date v] (also for the unused
    [find_date_in_html]); [r] is a row labelled exactly [Date taken] with
    the non-empty value [v]; and a row with any other label never ends
    the scan. *)
Theorem table_fallback_first_row (post : node) (pre : list node) (r : node)
    (rest : list node) (v : string) :
  match find "div" DATE_CLASS post with
  | Some dd => parse_instagram_date (get_text dd)
  | None => None
  end = None ->
  find_all_tag "tr" post = pre ++ r :: rest ->
  Forall (fun row => row_date_value row = None) pre ->
  row_date_value r = Some v ->
  post_date post = parse_instagram_date v /\
  (forall debug, fst (find_date_in_html post debug) = parse_instagram_date v) /\
  row_label_value r = Some ("Date taken", v) /\ v <> "" /\
  (forall row label value, row_label_value row = Some (label, value) ->
     label <> "Date taken" -> row_date_value row = None).
Proof.
  intros Hdisp Hrows Hpre Hr.
  assert (Hpd : post_date post = parse_instagram_date v).
  { unfold post_date. cbv zeta. rewrite Hdisp, Hrows. exact (table_date_first _ _ _ _ Hpre Hr). }
  split; [exact Hpd|]. split; [intros debug; by rewrite find_date_in_html_post_date|].
  split; [|split].
  - unfold row_date_value in Hr. destruct (row_label_value r) as [[label value]|]; [|discriminate].
    destruct (String.eqb_spec label "Date taken") as [->|]; [|discriminate].
    destruct (String.eqb value ""); [discriminate|]. by injection Hr as ->.
  - unfold row_date_value in Hr. destruct (row_label_value r) as [[label value]|]; [|discriminate].
    destruct (String.eqb label "Date taken"); [|discriminate].
    destruct (String.eqb_spec value "") as [|Hne]; [discriminate|].
    injection Hr as <-. exact Hne.
  - intros row label value Hrow Hlabel. unfold row_date_value. rewrite Hrow.
    destruct (String.eqb_spec label "Date taken"); [contradiction|reflexivity].
Qed.

Lemma table_fallback_first_row_witness :
  post_date post_table = Some (mk_dt 2019 5 5 5 5 5).
Proof.
  destruct (table_fallback_first_row post_table
              [table_row "Date modified" "2018:01:01 00:00:00"]
              (table_row "Date taken" "2019:05:05 05:05:05") [] "2019:05:05 05:05:05")
    as [H _]; [reflexivity | reflexivity | repeat constructor | reflexivity |].
  rewrite H. reflexivity.
Defined.

(** C5 (record-emission gate). Every record of [find_images_in_html]
    comes from one post, is that post's only contribution, and that post
    has an image element with a non-empty [src] and a date, the record's
    timestamp. *)
Theorem record_needs_src_and_date (pe : string -> bool) (soup : node) (doc : string)
    (debug : bool) (rec : string * datetime) :
  In rec (fst (find_images_in_html pe soup doc debug)) ->
  exists post img src,
    In post (find_all "div" POST_CLASS soup) /\
    fst (post_records pe doc debug post) = [rec] /\
    find "img" IMG_CLASS post = Some img /\ get_attr "src" img = Some src /\ src <> "" /\
    post_date post = Some (snd rec).
Proof.
  unfold find_images_in_html. cbn [fst]. rewrite map_map. intros Hin.
  apply in_concat in Hin as (l & Hl & Hin). apply in_map_iff in Hl as (post & <- & Hpost).
  exists post. unfold post_records in *.
  destruct (find "img" IMG_CLASS post) as [img|] eqn:Himg; [|simpl in Hin; contradiction].
  destruct (get_attr "src" img) as [src|] eqn:Hsrc, (post_date post) as [d|] eqn:Hd;
    try (simpl in Hin; contradiction).
  destruct (String.eqb_spec src "") as [|Hne]; [simpl in Hin; contradiction|].
  destruct (resolve_media pe doc src) as [full|full|]; simpl in Hin;
    try contradiction.
  destruct Hin as [<- | []].
  exists img, src. simpl. repeat split; auto.
Qed.

Lemma record_needs_src_and_date_witness :
  exists post img src,
    In post (find_all "div" POST_CLASS (Elem "html" [] [] [post_both])) /\
    fst (post_records sample_exists sample_doc false post)
      = [("export/media/posts/photo.jpg", mk_dt 2020 1 1 0 0 0)] /\
    find "img" IMG_CLASS post = Some img /\ get_attr "src" img = Some src /\ src <> "" /\
    post_date post = Some (mk_dt 2020 1 1 0 0 0).
Proof.
  apply (record_needs_src_and_date sample_exists (Elem "html" [] [] [post_both]) sample_doc
           false ("export/media/posts/photo.jpg", mk_dt 2020 1 1 0 0 0)).
  vm_compute. left. reflexivity.
Defined.




(** C7 (machine-format round trip). A string of the form
    [YYYY:MM:DD HH:MM:SS] (every field with exactly its number of digits)
    whose fields form a valid [datetime] parses to those fields, and
    [strftime("%Y:%m:%d %H:%M:%S")] of the result is the string again. *)
Theorem exif_round_trip (s : string) (dt : datetime) :
  spec_exif_fields s = Some dt -> datetime_ok dt = true ->
  parse_instagram_date s = Some dt /\ strftime_exif dt = s.
Proof.
  intros Hs Hok. pose proof (spec_exif_fields_strftime s dt Hs) as Hf.
  split; [|exact Hf].
  unfold parse_instagram_date. rewrite <- Hf, strptime_exif_strftime by exact Hok.
  reflexivity.
Qed.

Lemma exif_round_trip_witness :
  parse_instagram_date "2024:09:24 15:42:54" = Some (mk_dt 2024 9 24 15 42 54) /\
  strftime_exif (mk_dt 2024 9 24 15 42 54) = "2024:09:24 15:42:54".
Proof. apply exif_round_trip; reflexivity. Defined.

Lemma update_copy_raises_eq (E : env) (fs : gmap string file) (p : string) (d : datetime)
    (f : file) :
  fs !! p = Some f -> copy_fault E = Some None -> move_fails E = false ->
  update_image_metadata E p d fs =
    (Ret false, match fs !! backup_name p with
                | Some g => <[p := g]> (delete (backup_name p) fs)
                | None => fs
                end).
Proof.
  intros Hp Hc Hm. unfold update_image_metadata.
  rewrite (bind_ret_eq _ _ fs true fs) by (unfold path_exists; by rewrite Hp).
  cbn [negb]. rewrite (try_raise_eq _ _ fs fs).
  2:{ unfold update_steps. apply bind_raise_eq. unfold copy2. by rewrite Hp, Hc. }
  destruct (fs !! backup_name p) as [g|] eqn:Hb.
  - by apply restore_backup_some.
  - unfold restore_backup.
    rewrite (bind_ret_eq _ _ fs false fs) by (unfold path_exists; by rewrite Hb). done.
Qed.

Lemma update_partial_copy_eq (E : env) (fs : gmap string file) (p : string) (d : datetime)
    (f partial : file) :
  fs !! p = Some f -> copy_fault E = Some (Some partial) -> move_fails E = false ->
  update_image_metadata E p d fs = (Ret false, <[p := partial]> (delete (backup_name p) fs)).
Proof.
  intros Hp Hc Hm. unfold update_image_metadata.
  rewrite (bind_ret_eq _ _ fs true fs) by (unfold path_exists; by rewrite Hp).
  cbn [negb]. rewrite (try_raise_eq _ _ fs (<[backup_name p := partial]> fs)).
  2:{ unfold update_steps. apply bind_raise_eq. unfold copy2. by rewrite Hp, Hc. }
  rewrite (restore_backup_some E p _ partial) by (done || by rewrite lookup_insert_eq).
  by rewrite delete_insert_eq.
Qed.

Lemma update_restore_raises_eq (E : env) (fs : gmap string file) (p : string) (d : datetime)
    (f : file) :
  fs !! p = Some f -> copy_fault E = None -> move_fails E = true ->
  writer_step_fails E f d = true ->
  fst (update_image_metadata E p d fs) = Raise /\
  snd (update_image_metadata E p d fs) !! backup_name p = Some f.
Proof.
  intros Hp Hc Hm Hf. pose proof (backup_name_ne p) as Hne.
  destruct (update_steps_result E fs p (backup_name p) d f Hp Hc Hne) as (s & Hs & Hbk).
  rewrite Hf in Hs, Hbk. unfold update_image_metadata.
  rewrite (bind_ret_eq _ _ fs true fs) by (unfold path_exists; by rewrite Hp).
  cbn [negb]. rewrite (try_raise_eq _ _ fs s) by exact Hs.
  unfold restore_backup.
  rewrite (bind_ret_eq _ _ s true s) by (unfold path_exists; by rewrite Hbk).
  rewrite (bind_raise_eq _ _ s s) by (unfold shutil_move; by rewrite Hbk, Hm).
  done.
Qed.




(** C9 (diagnostic-mode noninterference). [debug] changes no record of
    [find_images_in_html] nor the date of [find_date_in_html]; with
    [debug] off nothing is printed. *)
Theorem debug_noninterference (pe : string -> bool) (soup : node) (doc : string) :
  fst (find_images_in_html pe soup doc true) = fst (find_images_in_html pe soup doc false) /\
  snd (find_images_in_html pe soup doc false) = [] /\
  fst (find_date_in_html soup true) = fst (find_date_in_html soup false).
Proof.
  split; [|split].
  - unfold find_images_in_html. cbn [fst]. rewrite !map_map.
    induction (find_all "div" POST_CLASS soup) as [|post posts IH]; [reflexivity|].
    simpl. rewrite (proj1 (post_records_debug pe doc post)), IH. reflexivity.
  - unfold find_images_in_html. cbn [snd]. rewrite map_map.
    induction (find_all "div" POST_CLASS soup) as [|post posts IH]; [reflexivity|].
    simpl. rewrite (proj2 (post_records_debug pe doc post)), IH. reflexivity.
  - by rewrite !find_date_in_html_post_date.
Qed.

(** C10 (backup removal is part of success). [True] is returned only if
    [os.remove] of the backup does not raise; when it raises, for a target
    holding [f] whose backup copy and restoring move succeed, the call
    returns [False], the target holds [f] again (the completed update is
    undone) and no backup is left. *)
Theorem success_needs_backup_removal (E : env) (fs : gmap string file) (p : string)
    (d : datetime) :
  (fst (update_image_metadata E p d fs) = Ret true -> remove_fails E = false) /\
  (forall f, fs !! p = Some f -> copy_fault E = None -> move_fails E = false ->
     remove_fails E = true ->
     fst (update_image_metadata E p d fs) = Ret false /\
     snd (update_image_metadata E p d fs) !! p = Some f /\
     snd (update_image_metadata E p d fs) !! backup_name p = None).
Proof.
  split; [apply update_true_remove|].
  intros f Hp Hc Hm Hr. destruct (update_present E fs p d f Hp Hc Hm) as (H1 & H2 & H3).
  assert (Hf : fst (update_image_metadata E p d fs) = Ret false).
  { rewrite H1. unfold writer_step_fails. rewrite Hr. by rewrite !orb_true_r. }
  auto.
Qed.

Lemma success_needs_backup_removal_witness :
  fst (update_image_metadata (sample_env true None true) "a.jpg" sample_date sample_fs)
    = Ret false /\
  snd (update_image_metadata (sample_env true None true) "a.jpg" sample_date sample_fs)
    !! "a.jpg" = Some sample_file /\
  snd (update_image_metadata (sample_env true None true) "a.jpg" sample_date sample_fs)
    !! "a.jpg.backup" = None.
Proof.
  apply (proj2 (success_needs_backup_removal (sample_env true None true) sample_fs "a.jpg"
                  sample_date) sample_file); reflexivity.
Defined.

(* ------------------------------------------------------------------ *)
(** ** Writes of the metadata writer *)

Lemma frame_ret {A} (S : list string) (a : A) : frame S (mret a : M A).
Proof. intros fs q _. reflexivity. Qed.

Lemma frame_bind {A B} (S : list string) (m : M A) (k : A -> M B) :
  frame S m -> (forall a, frame S (k a)) -> frame S (m ≫= k).
Proof.
  intros Hm Hk fs q Hq. unfold mbind, M_bind. specialize (Hm fs q Hq).
  destruct (m fs) as [[a|] fs'] eqn:Em; simpl in *; [|done].
  rewrite (Hk a fs' q Hq). done.
Qed.

Lemma frame_try {A} (S : list string) (m h : M A) :
  frame S m -> frame S h -> frame S (try_except m h).
Proof.
  intros Hm Hh fs q Hq. unfold try_except. specialize (Hm fs q Hq).
  destruct (m fs) as [[a|] fs'] eqn:Em; simpl in *; [done|].
  rewrite (Hh fs' q Hq). done.
Qed.

Lemma frame_mono {A} (S S' : list string) (m : M A) :
  (forall q, In q S -> In q S') -> frame S m -> frame S' m.
Proof. intros Hs Hm fs q Hq. apply Hm. intros Hin. apply Hq, Hs, Hin. Qed.

Lemma frame_path_exists S p : frame S (path_exists p).
Proof. intros fs q _. unfold path_exists. by case_match. Qed.

Lemma frame_copy2 E S src dst : In dst S -> frame S (copy2 E src dst).
Proof.
  intros Hd fs q Hq. unfold copy2.
  assert (q <> dst) by (intros ->; contradiction).
  repeat case_match; simpl; try done; by rewrite lookup_insert_ne.
Qed.

Lemma frame_image_open E S p : frame S (image_open E p).
Proof. intros fs q _. unfold image_open. by repeat case_match. Qed.

Lemma frame_piexif_load E S p : frame S (piexif_load E p).
Proof. intros fs q _. unfold piexif_load. by repeat case_match. Qed.

Lemma frame_piexif_dump E S x : frame S (piexif_dump E x).
Proof. intros fs q _. unfold piexif_dump. by repeat case_match. Qed.

Lemma frame_img_save E S img p b : In p S -> frame S (img_save E img p b).
Proof.
  intros Hp fs q Hq. unfold img_save.
  assert (q <> p) by (intros ->; contradiction).
  repeat case_match; simpl; try done; by rewrite lookup_insert_ne.
Qed.

Lemma frame_py_timestamp E S d : frame S (py_timestamp E d).
Proof. intros fs q _. unfold py_timestamp. by repeat case_match. Qed.

Lemma frame_os_utime E S p t : In p S -> frame S (os_utime E p t).
Proof.
  intros Hp fs q Hq. unfold os_utime.
  assert (q <> p) by (intros ->; contradiction).
  repeat case_match; simpl; try done; by rewrite lookup_insert_ne.
Qed.

Lemma frame_os_remove E S p : In p S -> frame S (os_remove E p).
Proof.
  intros Hp fs q Hq. unfold os_remove.
  assert (q <> p) by (intros ->; contradiction).
  repeat case_match; simpl; try done; by rewrite lookup_delete_ne.
Qed.

Lemma frame_shutil_move E S src dst : In src S -> In dst S -> frame S (shutil_move E src dst).
Proof.
  intros Hs Hd fs q Hq. unfold shutil_move.
  assert (q <> src) by (intros ->; contradiction).
  assert (q <> dst) by (intros ->; contradiction).
  repeat case_match; simpl; try done. by rewrite lookup_insert_ne, lookup_delete_ne.
Qed.

Lemma frame_update_steps E p bk d : frame [p; bk] (update_steps E p bk d).
Proof.
  unfold update_steps.
  apply frame_bind; [apply frame_copy2; simpl; auto|intros _].
  apply frame_bind; [apply frame_image_open|intros img]. cbv zeta.
  apply frame_bind; [apply frame_try; [apply frame_piexif_load|apply frame_ret]|intros x].
  apply frame_bind; [apply frame_piexif_dump|intros b].
  apply frame_bind; [apply frame_img_save; simpl; auto|intros _].
  apply frame_bind; [apply frame_py_timestamp|intros t].
  apply frame_bind; [apply frame_os_utime; simpl; auto|intros _].
  apply frame_bind; [apply frame_os_remove; simpl; auto|intros _].
  apply frame_ret.
Qed.

Lemma frame_restore_backup E p bk : frame [p; bk] (restore_backup E p bk).
Proof.
  unfold restore_backup.
  apply frame_bind; [apply frame_path_exists|intros b]. destruct b.
  - apply frame_bind; [apply frame_shutil_move; simpl; auto|intros _]. apply frame_ret.
  - apply frame_ret.
Qed.

Lemma frame_update E p d : frame [p; backup_name p] (update_image_metadata E p d).
Proof.
  unfold update_image_metadata.
  apply frame_bind; [apply frame_path_exists|intros ex]. destruct (negb ex).
  - apply frame_ret.
  - cbv zeta. apply frame_try; [apply frame_update_steps|apply frame_restore_backup].
Qed.

Lemma writer_step_fails_false E f d :
  writer_step_fails E f d = false ->
  open_fails E = false /\ (exists b, exif_dump E (written_exif E f d) = Some b) /\
  save_fault E = None /\ (exists t, epoch E d = Some t) /\
  utime_fails E = false /\ remove_fails E = false.
Proof.
  unfold writer_step_fails. intros H. repeat rewrite orb_false_iff in H.
  destruct H as [[[[[Ho Hd] Hs] Ht] Hu] Hr].
  apply bool_decide_eq_false_1 in Hd, Hs, Ht.
  repeat split; try done.
  - destruct (exif_dump E (written_exif E f d)) as [b|]; [by exists b|done].
  - destruct (save_fault E); [|done]. exfalso. by apply Hs.
  - destruct (epoch E d) as [t|]; [by exists t|done].
Qed.

(** The whole run for a target holding [f] when no step raises. *)
Lemma update_success_exact E fs p d f b t :
  fs !! p = Some f -> copy_fault E = None -> open_fails E = false ->
  exif_dump E (written_exif E f d) = Some b -> save_fault E = None ->
  epoch E d = Some t -> utime_fails E = false -> remove_fails E = false ->
  update_image_metadata E p d fs =
    (Ret true, <[p := mk_file (img_encode E (f_data f) b) t t]> (delete (backup_name p) fs)).
Proof.
  intros Hp Hc Ho Hd Hs Ht Hu Hr. pose proof (backup_name_ne p) as Hne.
  unfold update_image_metadata.
  rewrite (bind_ret_eq _ _ fs true fs) by (unfold path_exists; by rewrite Hp).
  cbn [negb]. apply try_ret_eq. unfold update_steps.
  rewrite (bind_ret_eq _ _ fs tt (<[(backup_name p) := f]> fs)) by (unfold copy2; by rewrite Hp, Hc).
  assert (Hp1 : <[(backup_name p) := f]> fs !! p = Some f) by (rewrite lookup_insert_ne; congruence).
  rewrite (bind_ret_eq _ _ _ (f_data f) (<[(backup_name p) := f]> fs))
    by (unfold image_open; by rewrite Hp1, Ho).
  set (x := match exif_load E (f_data f) with Some x => x | None => empty_exif end).
  rewrite (bind_ret_eq _ _ _ x (<[(backup_name p) := f]> fs)).
  2:{ unfold x, try_except, piexif_load. rewrite Hp1.
      destruct (exif_load E (f_data f)); reflexivity. }
  unfold written_exif in Hd. fold x in Hd.
  rewrite (bind_ret_eq _ _ _ b (<[(backup_name p) := f]> fs)) by (unfold piexif_dump; by rewrite Hd).
  set (fs2 := <[p := mk_file (img_encode E (f_data f) b) (f_atime f) (now E)]> (<[(backup_name p) := f]> fs)).
  rewrite (bind_ret_eq _ _ _ tt fs2) by (unfold img_save; by rewrite Hs, Hp1).
  rewrite (bind_ret_eq _ _ _ t fs2) by (unfold py_timestamp; by rewrite Ht).
  assert (Hp2 : fs2 !! p = Some (mk_file (img_encode E (f_data f) b) (f_atime f) (now E)))
    by (unfold fs2; by rewrite lookup_insert_eq).
  set (fs3 := <[p := mk_file (img_encode E (f_data f) b) t t]> fs2).
  rewrite (bind_ret_eq _ _ _ tt fs3) by (unfold os_utime; by rewrite Hp2, Hu).
  assert (Hbk3 : fs3 !! (backup_name p) = Some f)
    by (unfold fs3, fs2; rewrite !lookup_insert_ne by congruence; by rewrite lookup_insert_eq).
  rewrite (bind_ret_eq _ _ _ tt (delete (backup_name p) fs3)) by (unfold os_remove; by rewrite Hbk3, Hr).
  f_equal. unfold fs3, fs2.
  rewrite delete_insert_ne by congruence. rewrite delete_insert_ne by congruence.
  rewrite delete_insert_eq. by rewrite insert_insert_eq.
Qed.

Lemma update_fails_state E fs p d f :
  fs !! p = Some f -> copy_fault E = None -> move_fails E = false ->
  writer_step_fails E f d = true ->
  update_image_metadata E p d fs = (Ret false, delete (backup_name p) fs).
Proof.
  intros Hp Hc Hm Hf.
  destruct (update_present E fs p d f Hp Hc Hm) as (H1 & H2 & H3).
  rewrite Hf in H1. cbn [negb] in H1. specialize (H3 H1).
  pose proof (frame_update E p d fs) as Hfr.
  destruct (update_image_metadata E p d fs) as [o s]. simpl in *. subst o. f_equal.
  apply map_eq. intros q.
  destruct (decide (q = backup_name p)) as [->|Hb].
  { by rewrite H2, lookup_delete_eq. }
  rewrite lookup_delete_ne by congruence.
  destruct (decide (q = p)) as [->|Hq]; [by rewrite H3, Hp|].
  apply Hfr. simpl. intuition congruence.
Qed.

(** [update_image_metadata] writes no path other than the target and its
    [.backup] sibling, whatever the libraries raise. *)
Theorem update_image_metadata_frame (E : env) (fs : gmap string file) (p q : string)
    (d : datetime) :
  q <> p -> q <> backup_name p ->
  snd (update_image_metadata E p d fs) !! q = fs !! q.
Proof. intros H1 H2. apply frame_update. simpl. intuition congruence. Qed.

Lemma update_image_metadata_frame_witness :
  snd (update_image_metadata (sample_env true None false) "a.jpg" sample_date
         (<["z.jpg" := sample_file]> sample_fs)) !! "z.jpg" = Some sample_file.
Proof.
  rewrite (update_image_metadata_frame _ _ "a.jpg" "z.jpg"); [reflexivity|discriminate|discriminate].
Defined.

Lemma update_success_some (E : env) (fs : gmap string file) (p : string)
    (d : datetime) (f : file) :
  fs !! p = Some f -> copy_fault E = None -> writer_step_fails E f d = false ->
  exists b t, exif_dump E (written_exif E f d) = Some b /\ epoch E d = Some t /\
    update_image_metadata E p d fs =
      (Ret true, <[p := mk_file (img_encode E (f_data f) b) t t]> (delete (backup_name p) fs)).
Proof.
  intros Hp Hc Hf.
  destruct (writer_step_fails_false E f d Hf) as (Ho & [b Hb] & Hs & [t Ht] & Hu & Hr).
  exists b, t. repeat split; try done.
  by apply update_success_exact.
Qed.

(** A target holding [f] whose writer steps all succeed: the call returns
    [True], the target holds the re-encoded image with both times set to
    the date's timestamp, and no [.backup] remains (an older one is gone
    too). *)
Theorem update_success_state (E : env) (fs : gmap string file) (p : string)
    (d : datetime) (f : file) :
  fs !! p = Some f -> copy_fault E = None -> writer_step_fails E f d = false ->
  exists b t, exif_dump E (written_exif E f d) = Some b /\ epoch E d = Some t /\
    update_image_metadata E p d fs =
      (Ret true, <[p := mk_file (img_encode E (f_data f) b) t t]> (delete (backup_name p) fs)).
Proof. apply update_success_some. Qed.

Lemma update_success_state_witness :
  exists b t, exif_dump (sample_env true None false) (written_exif (sample_env true None false) sample_file sample_date) = Some b /\
    epoch (sample_env true None false) sample_date = Some t /\
    update_image_metadata (sample_env true None false) "a.jpg" sample_date sample_fs =
      (Ret true, <["a.jpg" := mk_file (img_encode (sample_env true None false) (f_data sample_file) b) t t]>
                   (delete (backup_name "a.jpg") sample_fs)).
Proof. apply update_success_state; reflexivity. Defined.

(** A target holding [f] where a writer step raises, with the backup copy
    and the restoring move succeeding: the call returns [False] and the
    file system is the one before the call, less any old [.backup]. *)
Theorem update_failure_state (E : env) (fs : gmap string file) (p : string)
    (d : datetime) (f : file) :
  fs !! p = Some f -> copy_fault E = None -> move_fails E = false ->
  writer_step_fails E f d = true ->
  update_image_metadata E p d fs = (Ret false, delete (backup_name p) fs).
Proof. apply update_fails_state. Qed.

Lemma update_failure_state_witness :
  update_image_metadata (sample_env true (Some None) false) "a.jpg" sample_date
    (<["a.jpg.backup" := sample_file]> sample_fs) = (Ret false, sample_fs).
Proof.
  rewrite (update_failure_state _ _ "a.jpg" sample_date sample_file); [|reflexivity..].
  f_equal; vm_compute; reflexivity.
Defined.

(** [shutil.copy2] raises before writing the backup: the call returns
    [False]; a [p.backup] left over from an earlier run is moved over the
    target, otherwise nothing changes. *)
Theorem update_copy_raises (E : env) (fs : gmap string file) (p : string) (d : datetime)
    (f : file) :
  fs !! p = Some f -> copy_fault E = Some None -> move_fails E = false ->
  update_image_metadata E p d fs =
    (Ret false, match fs !! backup_name p with
                | Some g => <[p := g]> (delete (backup_name p) fs)
                | None => fs
                end).
Proof. exact (update_copy_raises_eq E fs p d f). Qed.

Lemma update_copy_raises_witness :
  update_image_metadata (mk_env (Some None) false (fun _ => None) (fun _ => None)
      (fun _ _ => []) None 0%Z (fun _ => None) false false false) "a.jpg" sample_date
    (<["a.jpg.backup" := mk_file [] 0 0]> sample_fs)
  = (Ret false, <["a.jpg" := mk_file [] 0 0]> (delete "a.jpg.backup" (<["a.jpg.backup" := mk_file [] 0 0]> sample_fs))).
Proof. apply update_copy_raises with (f := sample_file); reflexivity. Defined.

(** [shutil.copy2] writes part of the backup and raises: the except branch
    moves that partial copy over the target and the call returns [False]. *)
Theorem update_partial_copy (E : env) (fs : gmap string file) (p : string) (d : datetime)
    (f partial : file) :
  fs !! p = Some f -> copy_fault E = Some (Some partial) -> move_fails E = false ->
  update_image_metadata E p d fs = (Ret false, <[p := partial]> (delete (backup_name p) fs)).
Proof. exact (update_partial_copy_eq E fs p d f partial). Qed.

(** A step after the backup raises and the restoring [shutil.move] raises
    too: the exception leaves the call, and the backup stays on disk with
    the original contents. *)
Theorem update_restore_raises (E : env) (fs : gmap string file) (p : string) (d : datetime)
    (f : file) :
  fs !! p = Some f -> copy_fault E = None -> move_fails E = true ->
  writer_step_fails E f d = true ->
  fst (update_image_metadata E p d fs) = Raise /\
  snd (update_image_metadata E p d fs) !! backup_name p = Some f.
Proof. exact (update_restore_raises_eq E fs p d f). Qed.

Lemma update_partial_copy_witness :
  update_image_metadata (mk_env (Some (Some (mk_file [Byte.x01] 5 5))) false (fun _ => None)
      (fun _ => None) (fun _ _ => []) None 0%Z (fun _ => None) false false false)
    "a.jpg" sample_date sample_fs
  = (Ret false, <["a.jpg" := mk_file [Byte.x01] 5 5]> (delete "a.jpg.backup" sample_fs)).
Proof. apply update_partial_copy with (f := sample_file); reflexivity. Defined.

Lemma update_restore_raises_witness :
  fst (update_image_metadata (mk_env None true (fun _ => None) (fun _ => None)
      (fun _ _ => []) None 0%Z (fun _ => None) false false true) "a.jpg" sample_date sample_fs)
    = Raise /\
  snd (update_image_metadata (mk_env None true (fun _ => None) (fun _ => None)
      (fun _ _ => []) None 0%Z (fun _ => None) false false true) "a.jpg" sample_date sample_fs)
    !! "a.jpg.backup" = Some sample_file.
Proof. apply update_restore_raises; reflexivity. Defined.

(* ------------------------------------------------------------------ *)
(** ** The EXIF dictionary written *)

Lemma ifd_get_set_eq k v d : ifd_get k (ifd_set k v d) = Some v.
Proof.
  unfold ifd_get. induction d as [|[k' v'] d IH]; simpl.
  - by rewrite Z.eqb_refl.
  - destruct (Z.eqb k k') eqn:E; simpl.
    + by rewrite Z.eqb_refl.
    + apply Z.eqb_neq in E. destruct (Z.eqb k' k) eqn:E'; [apply Z.eqb_eq in E'; lia|]. exact IH.
Qed.

Lemma ifd_get_set_ne k k' v d : k' <> k -> ifd_get k' (ifd_set k v d) = ifd_get k' d.
Proof.
  intros Hne. unfold ifd_get. induction d as [|[k0 v0] d IH]; simpl.
  - destruct (Z.eqb k k') eqn:E; [apply Z.eqb_eq in E; lia|]. reflexivity.
  - destruct (Z.eqb k k0) eqn:E; simpl.
    + apply Z.eqb_eq in E. subst k0.
      destruct (Z.eqb k k') eqn:E1; [apply Z.eqb_eq in E1; lia|]. reflexivity.
    + destruct (Z.eqb k0 k'); [reflexivity|]. exact IH.
Qed.

(** [set_exif_dates] (lines 168-170) sets DateTime in the 0th IFD and
    DateTimeOriginal and DateTimeDigitized in the Exif IFD to the string;
    every other tag, the GPS IFD and the 1st IFD are kept. *)
Theorem set_exif_dates_spec (s : string) (x : exif_dict) :
  ifd_get ImageIFD_DateTime (ifd_0th (set_exif_dates s x)) = Some s /\
  ifd_get ExifIFD_DateTimeOriginal (ifd_exif (set_exif_dates s x)) = Some s /\
  ifd_get ExifIFD_DateTimeDigitized (ifd_exif (set_exif_dates s x)) = Some s /\
  (forall k, k <> ImageIFD_DateTime ->
     ifd_get k (ifd_0th (set_exif_dates s x)) = ifd_get k (ifd_0th x)) /\
  (forall k, k <> ExifIFD_DateTimeOriginal -> k <> ExifIFD_DateTimeDigitized ->
     ifd_get k (ifd_exif (set_exif_dates s x)) = ifd_get k (ifd_exif x)) /\
  ifd_gps (set_exif_dates s x) = ifd_gps x /\ ifd_1st (set_exif_dates s x) = ifd_1st x.
Proof.
  unfold set_exif_dates; simpl. repeat split.
  - apply ifd_get_set_eq.
  - rewrite ifd_get_set_ne by (unfold ExifIFD_DateTimeOriginal, ExifIFD_DateTimeDigitized; lia).
    apply ifd_get_set_eq.
  - apply ifd_get_set_eq.
  - intros k Hk. by apply ifd_get_set_ne.
  - intros k H1 H2. rewrite !ifd_get_set_ne by congruence. reflexivity.
Qed.



Lemma class_lower_dec (p : ascii -> bool) :
  forallb (fun n => Bool.eqb (p (lower (ascii_of_nat n))) (p (ascii_of_nat n))) (seq 0 256) = true ->
  class_lower p.
Proof.
  intros H c. rewrite forallb_forall in H.
  specialize (H (nat_of_ascii c)). rewrite ascii_nat_embedding in H.
  apply Bool.eqb_prop, H. apply in_seq. pose proof (nat_ascii_bounded c). lia.
Qed.

Ltac lower_by_table := apply class_lower_dec; vm_compute; reflexivity.

Lemma lower_idem (c : ascii) : lower (lower c) = lower c.
Proof.
  pose proof (class_lower_dec (fun x => Ascii.eqb x (lower c))) as H.
  destruct c as [[] [] [] [] [] [] [] []]; vm_compute; reflexivity.
Qed.

Lemma class_lower_ci (c : ascii) : class_lower (ci c).
Proof. intros x. unfold ci. by rewrite lower_idem. Qed.

Lemma digit_lower (c : ascii) : is_digit c = true -> lower c = c.
Proof. destruct c as [[] [] [] [] [] [] [] []]; vm_compute; congruence. Qed.

Lemma take_alt_lower (alt : list (ascii -> bool)) (s : list ascii) :
  Forall class_lower alt ->
  take_alt alt (map lower s) =
    option_map (fun cr => (map lower (fst cr), map lower (snd cr))) (take_alt alt s).
Proof.
  revert s. induction alt as [|p alt IH]; intros s Hal; [reflexivity|].
  inversion Hal as [|? ? Hp Hal']; subst.
  destruct s as [|c s]; [reflexivity|]. simpl. rewrite Hp.
  destruct (p c); [|reflexivity].
  rewrite (IH s Hal'). by destruct (take_alt alt s) as [[cap r]|].
Qed.

Lemma ws_run_lower (s : list ascii) : ws_run (map lower s) = ws_run s.
Proof.
  assert (Hs : class_lower is_space) by lower_by_table.
  induction s as [|c s IH]; [reflexivity|]. simpl. by rewrite Hs, IH.
Qed.

Lemma re_match_lower (its : list item) :
  Forall item_lower its ->
  forall s, re_match its (map lower s) =
    option_map (fun cr => (map (map lower) (fst cr), map lower (snd cr))) (re_match its s).
Proof.
  induction its as [|it its IH]; intros Hits s; [reflexivity|].
  inversion Hits as [|? ? Hit Hits']; subst. specialize (IH Hits').
  destruct it as [p| |alts]; simpl.
  - destruct s as [|c s]; [reflexivity|]. simpl. simpl in Hit. rewrite Hit.
    destruct (p c); [apply IH|reflexivity].
  - rewrite ws_run_lower. induction (ws_run s) as [|k IHk]; [reflexivity|].
    rewrite skipn_map, IH.
    destruct (re_match its (skipn (S k) s)); [reflexivity|exact IHk].
  - simpl in Hit. clear Hits. induction alts as [|a alts IHa]; [reflexivity|].
    inversion Hit as [|? ? Ha Halts]; subst.
    rewrite (take_alt_lower a s Ha).
    destruct (take_alt a s) as [[cap s']|]; simpl; [|exact (IHa Halts)].
    rewrite IH. destruct (re_match its s') as [[caps r]|]; simpl; [reflexivity|exact (IHa Halts)].
Qed.

Lemma exif_format_lower : Forall item_lower exif_format_re.
Proof.
  unfold exif_format_re, re_Y, re_m, re_d, re_H, re_M, re_S.
  repeat constructor; lower_by_table.
Qed.

Lemma display_format_lower : Forall item_lower display_format_re.
Proof.
  unfold display_format_re, re_b, re_d, re_Y, re_I, re_M, re_p.
  repeat constructor; try lower_by_table; try apply class_lower_ci.
Qed.

Lemma py_int_lower (s : list ascii) : py_int (map lower s) = py_int s.
Proof.
  assert (Hd : class_lower is_digit) by lower_by_table.
  unfold py_int.
  set (g := fun (acc : nat) (c : ascii) => if is_digit c then acc * 10 + digit_val c else acc).
  assert (Hg : forall acc c, g acc (lower c) = g acc c).
  { intros acc c. unfold g. rewrite Hd. destruct (is_digit c) eqn:Hc; [|reflexivity].
    by rewrite digit_lower. }
  generalize (0 : nat) as acc. induction s as [|c s IH]; intros acc; [reflexivity|].
  simpl. rewrite Hg. apply IH.
Qed.

Lemma lower_str_idem (s : list ascii) : lower_str (map lower s) = lower_str s.
Proof. unfold lower_str. rewrite map_map. apply map_ext, lower_idem. Qed.

Lemma strptime_exif_lower (s : string) :
  strptime_exif (lower_string s) = strptime_exif s.
Proof.
  unfold strptime_exif, lower_string, lower_str.
  rewrite list_ascii_of_string_of_list_ascii, (re_match_lower _ exif_format_lower).
  destruct (re_match exif_format_re (list_ascii_of_string s)) as [[caps r]|]; [|reflexivity].
  simpl. do 6 (destruct caps as [|? caps]; [reflexivity|]). destruct caps; [|reflexivity].
  destruct r; [|reflexivity].
  simpl. by rewrite !py_int_lower.
Qed.

Lemma strptime_display_lower (s : string) :
  strptime_display (lower_string s) = strptime_display s.
Proof.
  unfold strptime_display, lower_string.
  rewrite list_ascii_of_string_of_list_ascii. unfold lower_str at 1.
  rewrite (re_match_lower _ display_format_lower).
  destruct (re_match display_format_re (list_ascii_of_string s)) as [[caps r]|]; [|reflexivity].
  simpl. do 6 (destruct caps as [|? caps]; [reflexivity|]). destruct caps; [|reflexivity].
  destruct r; [|reflexivity].
  simpl. by rewrite !py_int_lower, !lower_str_idem.
Qed.

(** [parse_instagram_date] gives the same result on a string and on its
    lower-case form. *)
Theorem parse_case_insensitive (s : string) :
  parse_instagram_date (lower_string s) = parse_instagram_date s.
Proof.
  unfold parse_instagram_date. by rewrite strptime_exif_lower, strptime_display_lower.
Qed.

(** The EXIF string the writer stores for a valid date parses back to that
    date. *)
Theorem parse_strftime_exif (dt : datetime) :
  datetime_ok dt = true -> parse_instagram_date (strftime_exif dt) = Some dt.
Proof. intros Hok. unfold parse_instagram_date. by rewrite strptime_exif_strftime. Qed.

Lemma parse_strftime_exif_witness :
  parse_instagram_date (strftime_exif (mk_dt 2024 2 29 23 59 59)) = Some (mk_dt 2024 2 29 23 59 59).
Proof. apply parse_strftime_exif. reflexivity. Defined.

(* ------------------------------------------------------------------ *)
(** ** Records of a page *)

Lemma post_records_exist pe doc debug post r :
  In r (fst (post_records pe doc debug post)) -> pe (fst r) = true.
Proof.
  unfold post_records. repeat case_match; simpl; try tauto.
  intros [<- | []]. simpl. unfold resolve_media in *.
  repeat case_match; simplify_eq; done.
Qed.

Lemma post_records_length pe doc debug post :
  length (fst (post_records pe doc debug post)) <= 1.
Proof. unfold post_records. repeat case_match; simpl; lia. Qed.

Lemma post_records_noroot pe doc debug post :
  ~ In MARKER (path_parts doc) -> fst (post_records pe doc debug post) = [].
Proof.
  intros Hm. unfold post_records, resolve_media. rewrite list_index_absent by exact Hm.
  by repeat case_match.
Qed.

(** Every record of [find_images_in_html] names a path that exists; a page
    gives at most one record per post container; a page whose path has no
    [your_instagram_activity] part gives none. *)
Theorem find_images_records (pe : string -> bool) (soup : node) (doc : string) (debug : bool) :
  (forall r, In r (fst (find_images_in_html pe soup doc debug)) -> pe (fst r) = true) /\
  length (fst (find_images_in_html pe soup doc debug)) <= length (find_all "div" POST_CLASS soup) /\
  (~ In MARKER (path_parts doc) -> fst (find_images_in_html pe soup doc debug) = []).
Proof.
  unfold find_images_in_html. cbn [fst]. rewrite map_map. repeat split.
  - intros r Hr. apply in_concat in Hr as (rs & Hrs & Hr).
    apply in_map_iff in Hrs as (post & <- & _). by apply (post_records_exist pe doc debug post).
  - induction (find_all "div" POST_CLASS soup) as [|post posts IH]; simpl; [lia|].
    rewrite length_app. pose proof (post_records_length pe doc debug post). lia.
  - intros Hm. induction (find_all "div" POST_CLASS soup) as [|post posts IH]; [done|].
    simpl. by rewrite post_records_noroot, IH.
Qed.

Lemma path_parts_absolute (rest : string) :
  exists a parts, path_parts (String "/" rest) = a :: parts /\ is_anchor a = true.
Proof.
  unfold path_parts. simpl.
  destruct (list_ascii_of_string rest) as [|c2 [|c3 r]]; simpl.
  - eexists _, _. split; reflexivity.
  - destruct (lit "/" c2); eexists _, _; split; reflexivity.
  - destruct (lit "/" c2 && negb (lit "/" c3)); eexists _, _; split; reflexivity.
Qed.

(** An image reference starting with [/] is used as it is: the export root
    taken from the page's path is dropped. *)
Theorem resolve_media_absolute (pe : string -> bool) (doc rest : string) :
  In MARKER (path_parts doc) ->
  resolve_media pe doc (String "/" rest) =
    if pe (path_str (path_parts (String "/" rest)))
    then Resolved (path_str (path_parts (String "/" rest)))
    else NotFound (path_str (path_parts (String "/" rest))).
Proof.
  intros Hm. unfold resolve_media.
  destruct (list_index MARKER (path_parts doc)) as [i|] eqn:Hi.
  - destruct (path_parts_absolute rest) as (a & parts & Hp & Ha).
    unfold path_join. rewrite Hp, Ha. reflexivity.
  - exfalso. clear -Hm Hi. revert Hm Hi. induction (path_parts doc) as [|y l IH]; [done|].
    intros Hm Hi. cbn [list_index In] in Hm, Hi. destruct (String.eqb MARKER y) eqn:E; [discriminate|].
    apply String.eqb_neq in E. destruct Hm as [Hy|Hm]; [congruence|].
    apply IH; [done|]. by destruct (list_index MARKER l).
Qed.

Lemma resolve_media_absolute_witness :
  resolve_media (fun _ => true) sample_doc "/srv/photo.jpg" = Resolved "/srv/photo.jpg".
Proof.
  rewrite (resolve_media_absolute _ sample_doc "srv/photo.jpg"); [reflexivity|].
  vm_compute. right. left. reflexivity.
Defined.

(* ------------------------------------------------------------------ *)
(** ** Processing a page *)

Lemma update_all_frame E images c : frame (touched images) (update_all E images c).
Proof.
  revert c. induction images as [|[p d] rest IH]; intros c; simpl.
  - apply frame_ret.
  - apply frame_bind.
    + eapply frame_mono; [|apply frame_update]. simpl. intuition.
    + intros ok. eapply frame_mono; [|apply IH]. simpl. intuition.
Qed.

Lemma update_all_bound E images : forall c fs,
  match fst (update_all E images c fs) with
  | Ret n => c <= n <= c + length images
  | Raise => True
  end.
Proof.
  induction images as [|[p d] rest IH]; intros c fs; simpl.
  - lia.
  - unfold mbind, M_bind.
    destruct (update_image_metadata E p d fs) as [[ok|] fs'] eqn:Hu; simpl; [|done].
    specialize (IH (if ok then S c else c) fs').
    destruct (fst (update_all E rest _ fs')); [|done]. destruct ok; lia.
Qed.

(** With no records (the page is missing, unreadable, or has no dated
    image), [process_html_file] returns 0 and writes nothing. *)
Theorem process_no_records (E : env) (html_parse : list Byte.byte -> option node)
    (doc root : string) (debug : bool) (fs : gmap string file) :
  records_of html_parse doc debug fs = [] ->
  process_html_file E html_parse doc root debug fs = (Ret 0, fs).
Proof.
  intros H. unfold process_html_file, records_of, try_except in *.
  destruct (fs !! doc) as [f|]; [|reflexivity].
  destruct (html_parse (f_data f)) as [soup|]; [|reflexivity].
  rewrite H. reflexivity.
Qed.

Lemma process_no_records_witness :
  records_of (fun _ => None) "missing.html" false sample_fs = [] /\
  process_html_file (sample_env true None false) (fun _ => None) "missing.html" "." false sample_fs
    = (Ret 0, sample_fs).
Proof. split; [reflexivity|]. by apply process_no_records. Defined.

Lemma process_count_le (E : env) (html_parse : list Byte.byte -> option node)
    (doc root : string) (debug : bool) (fs : gmap string file) :
  exists n, fst (process_html_file E html_parse doc root debug fs) = Ret n /\
            n <= length (records_of html_parse doc debug fs).
Proof.
  unfold process_html_file, records_of, try_except.
  destruct (fs !! doc) as [f|]; [|exists 0; simpl; split; [done|lia]].
  destruct (html_parse (f_data f)) as [soup|]; [|exists 0; simpl; split; [done|lia]].
  destruct (fst (find_images_in_html _ soup doc debug)) as [|r rs] eqn:Hr;
    [exists 0; simpl; split; [done|lia]|].
  pose proof (update_all_bound E (r :: rs) 0 fs) as Hb.
  destruct (update_all E (r :: rs) 0 fs) as [[n|] fs']; simpl in *.
  - exists n. split; [done|lia].
  - exists 0. split; [done|lia].
Qed.

(** [process_html_file] never raises, and its count is at most the number
    of records of the page. *)
Theorem process_count_bound (E : env) (html_parse : list Byte.byte -> option node)
    (doc root : string) (debug : bool) (fs : gmap string file) :
  exists n, fst (process_html_file E html_parse doc root debug fs) = Ret n /\
            n <= length (records_of html_parse doc debug fs).
Proof. apply process_count_le. Qed.

(** [process_html_file] writes only the records' targets and their
    [.backup] siblings. *)
Theorem process_frame (E : env) (html_parse : list Byte.byte -> option node)
    (doc root : string) (debug : bool) (fs : gmap string file) (q : string) :
  ~ In q (touched (records_of html_parse doc debug fs)) ->
  snd (process_html_file E html_parse doc root debug fs) !! q = fs !! q.
Proof.
  intros Hq. unfold process_html_file, records_of, try_except in *.
  destruct (fs !! doc) as [f|]; [|reflexivity].
  destruct (html_parse (f_data f)) as [soup|]; [|reflexivity].
  destruct (fst (find_images_in_html _ soup doc debug)) as [|r rs]; [reflexivity|].
  pose proof (update_all_frame E (r :: rs) 0 fs q Hq) as Hf.
  destruct (update_all E (r :: rs) 0 fs) as [[n|] fs']; exact Hf.
Qed.

Lemma process_frame_witness :
  records_of (fun _ => Some (Elem "html" [] [] [post_both])) sample_doc false
    (<["a.jpg" := sample_file]> sample_page_fs) <> [] /\
  snd (process_html_file (sample_env true None false)
         (fun _ => Some (Elem "html" [] [] [post_both])) sample_doc "export" false
         (<["a.jpg" := sample_file]> sample_page_fs)) !! "a.jpg" = Some sample_file.
Proof.
  split; [vm_compute; discriminate|].
  rewrite process_frame; [vm_compute; reflexivity|]. vm_compute. intros H.
  repeat (destruct H as [H|H]; [discriminate H|]). exact H.
Defined.

Lemma update_all_success E images : forall c fs,
  copy_fault E = None -> (forall f d, writer_step_fails E f d = false) ->
  (forall r, In r images -> exists f, fs !! fst r = Some f) ->
  (forall r r', In r images -> In r' images -> fst r <> backup_name (fst r')) ->
  fst (update_all E images c fs) = Ret (c + length images).
Proof.
  induction images as [|[p d] rest IH]; intros c fs Hc Hw Hex Hbk; simpl.
  - f_equal. lia.
  - destruct (Hex (p, d) (or_introl eq_refl)) as [f Hp]. simpl in Hp.
    destruct (update_success_some E fs p d f Hp Hc (Hw f d)) as (b & t & _ & _ & Hu).
    unfold mbind, M_bind. rewrite Hu.
    rewrite IH; [f_equal; lia|done|done| |].
    + intros [q e] Hr. simpl.
      destruct (decide (q = p)) as [->|Hne].
      * eexists. by rewrite lookup_insert_eq.
      * destruct (Hex (q, e) (or_intror Hr)) as [g Hq]. exists g.
        rewrite lookup_insert_ne by congruence.
        rewrite lookup_delete_ne; [done|].
        intros Heq. apply (Hbk (q, e) (p, d) (or_intror Hr) (or_introl eq_refl)). simpl. by rewrite <- Heq.
    + intros r r' Hr Hr'. apply Hbk; simpl; auto.
Qed.

Lemma records_of_exist html_parse doc debug fs r :
  In r (records_of html_parse doc debug fs) -> exists f, fs !! fst r = Some f.
Proof.
  unfold records_of. destruct (fs !! doc) as [f|]; [|intros []].
  destruct (html_parse (f_data f)) as [soup|]; [|intros []].
  intros Hr. unfold find_images_in_html in Hr. cbn [fst] in Hr. rewrite map_map in Hr.
  apply in_concat in Hr as (rs & Hrs & Hr).
  apply in_map_iff in Hrs as (post & <- & _). apply post_records_exist in Hr.
  unfold exists_in in Hr. destruct (fs !! fst r) as [g|]; [by exists g|discriminate].
Qed.

(** When no library call of the writer raises and no record's path is the
    backup name of another record's path, every record is counted. *)
Theorem process_all_succeed (E : env) (html_parse : list Byte.byte -> option node)
    (doc root : string) (debug : bool) (fs : gmap string file) :
  copy_fault E = None -> (forall f d, writer_step_fails E f d = false) ->
  (forall r r', In r (records_of html_parse doc debug fs) ->
     In r' (records_of html_parse doc debug fs) -> fst r <> backup_name (fst r')) ->
  fst (process_html_file E html_parse doc root debug fs) =
    Ret (length (records_of html_parse doc debug fs)).
Proof.
  intros Hc Hw Hbk.
  pose proof (records_of_exist html_parse doc debug fs) as Hex.
  unfold process_html_file, try_except. unfold records_of in Hex, Hbk |- *.
  destruct (fs !! doc) as [f|]; [|reflexivity].
  destruct (html_parse (f_data f)) as [soup|]; [|reflexivity].
  destruct (fst (find_images_in_html _ soup doc debug)) as [|r rs]; [reflexivity|].
  pose proof (update_all_success E (r :: rs) 0 fs Hc Hw Hex Hbk) as Hu.
  destruct (update_all E (r :: rs) 0 fs) as [[n|] fs']; simpl in *; congruence.
Qed.

Lemma process_all_succeed_witness :
  fst (process_html_file (sample_env true None false)
         (fun _ => Some (Elem "html" [] [] [post_both])) sample_doc "export" false sample_page_fs)
  = Ret (length (records_of (fun _ => Some (Elem "html" [] [] [post_both])) sample_doc false
                   sample_page_fs)).
Proof.
  apply process_all_succeed; [reflexivity|intros; reflexivity|].
  vm_compute. intros r r' [<-|[]] [<-|[]]. discriminate.
Defined.

Lemma list_ascii_of_string_app (s1 s2 : string) :
  list_ascii_of_string (s1 +:+ s2) = list_ascii_of_string s1 ++ list_ascii_of_string s2.
Proof. induction s1 as [|c s1 IH]; simpl; [reflexivity|]. by rewrite IH. Qed.

Lemma string_of_list_ascii_app (a b : list ascii) :
  string_of_list_ascii (a ++ b) = string_of_list_ascii a +:+ string_of_list_ascii b.
Proof. induction a as [|c a IH]; simpl; [reflexivity|]. by rewrite IH. Qed.

Lemma rfind_dot_app (a b : list ascii) :
  rfind_dot (a ++ b) =
    match rfind_dot b with Some i => Some (length a + i) | None => rfind_dot a end.
Proof.
  induction a as [|c a IH]; simpl.
  - by destruct (rfind_dot b).
  - rewrite IH. destruct (rfind_dot b); [reflexivity|]. reflexivity.
Qed.

Lemma lower_dot (c : ascii) : lower c = "."%char -> c = "."%char.
Proof. destruct c as [[] [] [] [] [] [] [] []]; vm_compute; congruence. Qed.

Lemma lower_not_dot (c : ascii) : c = "."%char -> lower c = "."%char.
Proof. by intros ->. Qed.

Lemma html_ext_shape (e : list ascii) :
  lower_str e = list_ascii_of_string ".html" ->
  exists c1 c2 c3 c4, e = ["."%char; c1; c2; c3; c4] /\
    Forall (fun c => Ascii.eqb c "." = false) [c1; c2; c3; c4].
Proof.
  unfold lower_str. intros H.
  destruct e as [|c0 [|c1 [|c2 [|c3 [|c4 [|c5 e]]]]]]; simpl in H; try discriminate.
  injection H as H0 H1 H2 H3 H4.
  apply lower_dot in H0. subst c0. exists c1, c2, c3, c4. split; [reflexivity|].
  repeat constructor; apply Ascii.eqb_neq; intros ->; vm_compute in *; discriminate.
Qed.

Lemma html_suffix_iff (p : string) :
  html_suffix p = true <->
  exists stem e, path_name p = stem +:+ e /\ stem <> ""%string /\ lower_string e = ".html"%string.
Proof.
  unfold html_suffix, path_suffix. rewrite String.eqb_eq.
  set (l := list_ascii_of_string (path_name p)).
  assert (Hl : path_name p = string_of_list_ascii l) by (unfold l; by rewrite string_of_list_ascii_of_string).
  split.
  - destruct (rfind_dot l) as [i|] eqn:Hr; [|discriminate].
    destruct ((0 <? i) && (i <? length l - 1)) eqn:Hi; [|discriminate].
    apply andb_true_iff in Hi as [Hi1 Hi2]. apply Nat.ltb_lt in Hi1, Hi2.
    intros He. exists (string_of_list_ascii (firstn i l)), (string_of_list_ascii (skipn i l)).
    split; [|split; [|exact He]].
    + by rewrite Hl, <- string_of_list_ascii_app, firstn_skipn.
    + intros Hs. apply (f_equal list_ascii_of_string) in Hs.
      rewrite list_ascii_of_string_of_list_ascii in Hs.
      apply (f_equal (@length ascii)) in Hs. rewrite length_firstn in Hs. simpl in Hs. lia.
  - intros (stem & e & Hp & Hs & He).
    assert (Hle : lower_str (list_ascii_of_string e) = list_ascii_of_string ".html").
    { apply (f_equal list_ascii_of_string) in He. unfold lower_string in He.
      by rewrite list_ascii_of_string_of_list_ascii in He. }
    destruct (html_ext_shape _ Hle) as (c1 & c2 & c3 & c4 & He' & Hnd).
    assert (Hl2 : l = list_ascii_of_string stem ++ list_ascii_of_string e)
      by (unfold l; by rewrite Hp, list_ascii_of_string_app).
    assert (Hst : 0 < length (list_ascii_of_string stem)).
    { destruct stem; simpl; [congruence|lia]. }
    rewrite Hl2, rfind_dot_app, He'.
    rewrite !Forall_cons in Hnd. destruct Hnd as (Hd1 & Hd2 & Hd3 & Hd4 & _).
    simpl. rewrite Hd1, Hd2, Hd3, Hd4. simpl.
    rewrite Nat.add_0_r, length_app. simpl.
    assert (Hb : (0 <? length (list_ascii_of_string stem)) &&
                 (length (list_ascii_of_string stem) <? length (list_ascii_of_string stem) + 5 - 1) = true).
    { apply andb_true_iff. split; apply Nat.ltb_lt; lia. }
    rewrite Hb. rewrite skipn_app, skipn_all, Nat.sub_diag. simpl.
    rewrite <- He. f_equal. by rewrite <- (string_of_list_ascii_of_string e), He'.
Qed.

(** A file argument is processed exactly when its name is a non-empty
    stem followed by [.html] in any letter case; otherwise [main] stops. *)
Theorem collect_single_file (p : string) (globbed : list string) :
  (collect_html_files PFile p globbed = Some [p] <->
   exists stem e, path_name p = stem +:+ e /\ stem <> ""%string /\
                  lower_string e = ".html"%string) /\
  (collect_html_files PFile p globbed = None <-> html_suffix p = false).
Proof.
  unfold collect_html_files. rewrite <- html_suffix_iff.
  destruct (html_suffix p); split; split; congruence.
Qed.

